(** * MicroMood: the optimistic ledger and the mock backend

    A shallow embedding of [src/stores/moodStore.ts] (the zustand store that
    mirrors confirmed and pending mood entries) and of [src/api/mockServer.ts]
    (the in-memory backend with its event emitter), together with the
    properties the specification states about them.  The pure parts of two
    callers follow: the timeline computed in [src/hooks/useTimeline.ts] and
    the optimistic callbacks of [src/api/queries.ts].

    Conventions of the embedding.
    - A JavaScript [number] holding a timestamp is a [Z] (milliseconds since
      the epoch); the literal unions [MoodLevel] and [MoodCategory] are
      enumerations.
    - [uuid()] and [Date.now()] read the environment; every function that calls
      them takes the value read as an argument.
    - The store actions are state transformers: immer's [set] applied to a
      recipe on a draft.  An action whose recipe can throw returns how the
      call ended next to the state it leaves; a recipe that throws leaves the
      store as it was.
    - The backend operations are modelled from the point where
      [await delay()] resumes, after which each of them runs to completion
      without suspending.
    - A [throw] is an [Outcome] of the operation, next to the state it
      leaves behind. *)

From Stdlib Require Import ZArith QArith Qround Ascii String Lia.
From stdpp Require Import base list gmap strings sorting.

Open Scope Z_scope.

(** ** Core types ([src/types/index.ts]) *)

Inductive MoodLevel := L1 | L2 | L3 | L4 | L5.

Definition levelValue (l : MoodLevel) : Z :=
  match l with L1 => 1 | L2 => 2 | L3 => 3 | L4 => 4 | L5 => 5 end.

Inductive MoodCategory :=
  | calm | happy | energetic | anxious | tired | focused | stressed | grateful.

#[global] Instance MoodLevel_eq_dec : EqDecision MoodLevel.
Proof. solve_decision. Defined.

#[global] Instance MoodCategory_eq_dec : EqDecision MoodCategory.
Proof. solve_decision. Defined.

Record MoodEntry := {
  id : string;
  level : MoodLevel;
  category : MoodCategory;
  note : option string;
  timestamp : Z;
  userId : option string;
}.

#[global] Instance MoodEntry_eq_dec : EqDecision MoodEntry.
Proof. solve_decision. Defined.

#[global] Instance MoodEntry_inhabited : Inhabited MoodEntry :=
  populate {| id := EmptyString; level := L1; category := calm; note := None;
              timestamp := 0; userId := None |}.

(** [Array.prototype.findIndex]: the index of the first element satisfying
    the predicate; [None] stands for the result [-1]. *)
Fixpoint findIndex {A} (p : A -> bool) (l : list A) : option nat :=
  match l with
  | [] => None
  | x :: l' => if p x then Some 0%nat else S <$> findIndex p l'
  end.

(** [Array.prototype.some]. *)
Definition some {A} (p : A -> bool) (l : list A) : bool := existsb p l.

(** [Array.prototype.includes] on values compared with [===]. *)
Definition includes {A} `{EqDecision A} (l : list A) (x : A) : bool :=
  bool_decide (x ∈ l).

(** ** immer ([zustand/middleware/immer]) *)

(** The store is created under the [immer] middleware, so a function handed
    to [set] is a recipe that works on a draft of the state.  Arrays and plain
    objects are drafted by immer itself.  A [Map] is drafted by the MapSet
    plugin, which [enableMapSet()] loads: without it, reading a [Map] from a
    draft throws, the recipe is abandoned and the state stays as it was. *)
Module Immer.

Inductive ImmerError := MapSetNotLoaded.

(** How a call that runs a recipe ends. *)
Inductive Result (A : Type) :=
  | Ok (a : A)
  | Error (e : ImmerError).
Arguments Ok {A} _.
Arguments Error {A} _.

(** Whether [enableMapSet()] has been called: the repository calls it
    nowhere. *)
Definition mapSetLoaded : bool := false.

End Immer.

(** ** The ledger ([src/stores/moodStore.ts]) *)

Module Ledger.
Import Immer.

Record MoodState := {
  entries : list MoodEntry;
  pendingEntries : gmap string MoodEntry;
  isLoading : bool;
  isSyncing : bool;
  error : option string;
  lastSyncAt : option Z;
}.

Definition initial : MoodState :=
  {| entries := []; pendingEntries := ∅; isLoading := false;
     isSyncing := false; error := None; lastSyncAt := None |}.

(** The reserved prefix of temporary ids: [`temp-${uuid()}`]. *)
Definition tempPrefix : string := "temp-"%string.

(** A recipe: the content of the draft when it ends, or the exception that
    ended it. *)
Definition Recipe := MoodState -> Result MoodState.

(** [set(recipe)]: the state the recipe produced, or the state as it was
    together with the exception of the recipe. *)
Definition setWith (recipe : Recipe) (s : MoodState)
    : Result unit * MoodState :=
  match recipe s with
  | Ok s' => (Ok tt, s')
  | Error e => (Error e, s)
  end.

(** [state.pendingEntries] read from a draft. *)
Definition draftPendingEntries (loaded : bool) (s : MoodState)
    : Result (gmap string MoodEntry) :=
  if loaded then Ok (pendingEntries s) else Error MapSetNotLoaded.

(** The entry [addEntry] builds before it calls [set]; [u] is the value of
    [uuid()] and [now] the value of [Date.now()]. *)
Definition newEntry (u : string) (now : Z)
    (c : MoodCategory) (l : MoodLevel) (n : option string) : MoodEntry :=
  {| id := String.append tempPrefix u; category := c; level := l; note := n;
     timestamp := now; userId := None |}.

(** The recipe of [addEntry]:
    [state.entries.unshift(entry); state.pendingEntries.set(tempId, entry)]. *)
Definition addEntryRecipe (loaded : bool) (tempId : string)
    (entry : MoodEntry) : Recipe :=
  fun s =>
    let entries1 := entry :: entries s in
    match draftPendingEntries loaded s with
    | Error e => Error e
    | Ok pending =>
        Ok {| entries := entries1;
              pendingEntries := <[tempId := entry]> pending;
              isLoading := isLoading s; isSyncing := isSyncing s;
              error := error s; lastSyncAt := lastSyncAt s |}
    end.

(** [addEntry(category, level, note)], with the plugin loaded or not: the
    entry is returned after [set] has returned. *)
Definition addEntryWith (loaded : bool) (u : string) (now : Z)
    (c : MoodCategory) (l : MoodLevel) (n : option string)
    (s : MoodState) : Result MoodEntry * MoodState :=
  let entry := newEntry u now c l n in
  match setWith (addEntryRecipe loaded (id entry) entry) s with
  | (Ok _, s') => (Ok entry, s')
  | (Error e, s') => (Error e, s')
  end.

(** [addEntry] as the repository runs it. *)
Definition addEntry := addEntryWith mapSetLoaded.

(** [Partial<Pick<MoodEntry, 'level' | 'category' | 'note'>>]: a field that
    is present may still hold [undefined] in the case of [note]. *)
Record EntryUpdates := {
  upd_level : option MoodLevel;
  upd_category : option MoodCategory;
  upd_note : option (option string);
}.

(** [Object.assign(entry, updates)]. *)
Definition assign (e : MoodEntry) (u : EntryUpdates) : MoodEntry :=
  {| id := id e;
     level := default (level e) (upd_level u);
     category := default (category e) (upd_category u);
     note := default (note e) (upd_note u);
     timestamp := timestamp e;
     userId := userId e |}.

Definition updateEntry (i : string) (u : EntryUpdates) (s : MoodState)
    : MoodState :=
  let es :=
    match findIndex (fun e => String.eqb (id e) i) (entries s) with
    | Some index => alter (fun e => assign e u) index (entries s)
    | None => entries s
    end in
  {| entries := es; pendingEntries := pendingEntries s;
     isLoading := isLoading s; isSyncing := isSyncing s;
     error := error s; lastSyncAt := lastSyncAt s |}.

(** The recipe of [deleteEntry]:
    [state.entries = state.entries.filter(e => e.id !== id);
     state.pendingEntries.delete(id)]. *)
Definition deleteEntryRecipe (loaded : bool) (i : string) : Recipe :=
  fun s =>
    let entries1 := filter (fun e => id e ≠ i) (entries s) in
    match draftPendingEntries loaded s with
    | Error e => Error e
    | Ok pending =>
        Ok {| entries := entries1; pendingEntries := delete i pending;
              isLoading := isLoading s; isSyncing := isSyncing s;
              error := error s; lastSyncAt := lastSyncAt s |}
    end.

Definition deleteEntryWith (loaded : bool) (i : string) (s : MoodState)
    : Result unit * MoodState :=
  setWith (deleteEntryRecipe loaded i) s.

(** [deleteEntry] as the repository runs it. *)
Definition deleteEntry := deleteEntryWith mapSetLoaded.

(** The array part of [confirmEntry]:
    [index = entries.findIndex(e => e.id === tempId)] and, unless it is [-1],
    [entries[index] = confirmedEntry]. *)
Definition replaceFirst (tempId : string) (confirmedEntry : MoodEntry)
    (es : list MoodEntry) : list MoodEntry :=
  match findIndex (fun e => String.eqb (id e) tempId) es with
  | Some index => <[index := confirmedEntry]> es
  | None => es
  end.

(** The recipe of [confirmEntry]: the array part, then
    [state.pendingEntries.delete(tempId)]. *)
Definition confirmEntryRecipe (loaded : bool) (tempId : string)
    (confirmedEntry : MoodEntry) : Recipe :=
  fun s =>
    let entries1 := replaceFirst tempId confirmedEntry (entries s) in
    match draftPendingEntries loaded s with
    | Error e => Error e
    | Ok pending =>
        Ok {| entries := entries1; pendingEntries := delete tempId pending;
              isLoading := isLoading s; isSyncing := isSyncing s;
              error := error s; lastSyncAt := lastSyncAt s |}
    end.

Definition confirmEntryWith (loaded : bool) (tempId : string)
    (confirmedEntry : MoodEntry) (s : MoodState) : Result unit * MoodState :=
  setWith (confirmEntryRecipe loaded tempId confirmedEntry) s.

(** [confirmEntry] as the repository runs it. *)
Definition confirmEntry := confirmEntryWith mapSetLoaded.

(** The recipe of [rejectEntry]:
    [state.entries = state.entries.filter(e => e.id !== tempId);
     state.pendingEntries.delete(tempId); state.error = error]. *)
Definition rejectEntryRecipe (loaded : bool) (tempId : string) (err : string)
    : Recipe :=
  fun s =>
    let entries1 := filter (fun e => id e ≠ tempId) (entries s) in
    match draftPendingEntries loaded s with
    | Error e => Error e
    | Ok pending =>
        Ok {| entries := entries1; pendingEntries := delete tempId pending;
              isLoading := isLoading s; isSyncing := isSyncing s;
              error := Some err; lastSyncAt := lastSyncAt s |}
    end.

Definition rejectEntryWith (loaded : bool) (tempId : string) (err : string)
    (s : MoodState) : Result unit * MoodState :=
  setWith (rejectEntryRecipe loaded tempId err) s.

(** [rejectEntry] as the repository runs it. *)
Definition rejectEntry := rejectEntryWith mapSetLoaded.

(** [setEntries(entries)]; [now] is the value of [Date.now()]. *)
Definition setEntries (now : Z) (es : list MoodEntry) (s : MoodState)
    : MoodState :=
  {| entries := es; pendingEntries := pendingEntries s;
     isLoading := false; isSyncing := isSyncing s;
     error := error s; lastSyncAt := Some now |}.

Definition addRealtimeEntry (entry : MoodEntry) (s : MoodState) : MoodState :=
  let es :=
    if negb (some (fun e => String.eqb (id e) (id entry)) (entries s))
    then entry :: entries s
    else entries s in
  {| entries := es; pendingEntries := pendingEntries s;
     isLoading := isLoading s; isSyncing := isSyncing s;
     error := error s; lastSyncAt := lastSyncAt s |}.

(** Number of entries of a list that carry a given id. *)
Definition copies (i : string) (es : list MoodEntry) : nat :=
  length (filter (fun e => id e = i) es).

(** No two entries of the list share an id. *)
Definition distinctIds (es : list MoodEntry) : Prop := NoDup (id <$> es).

(** The ledger tracks [t] as pending and an entry of the array carries it. *)
Definition holdsPending (t : string) (s : MoodState) : Prop :=
  is_Some (pendingEntries s !! t) /\ exists e, e ∈ entries s /\ id e = t.

End Ledger.

(** ** Realtime events and API envelopes ([src/types/index.ts]) *)

Inductive RealtimeEventType :=
  | mood_created | mood_updated | mood_deleted | sync_complete.

(** The payloads the code puts into an event: the affected entry, the
    object [{ id }] of a deletion, or [null]. *)
Inductive Payload :=
  | PEntry (e : MoodEntry)
  | PDeleted (i : string)
  | PNull.

Record RealtimeEvent := {
  ev_type : RealtimeEventType;
  ev_payload : Payload;
  ev_timestamp : Z;
}.

Record ApiResponse (T : Type) := {
  data : T;
  success : bool;
  resp_timestamp : Z;
}.
Arguments data {T} _.
Arguments success {T} _.
Arguments resp_timestamp {T} _.

Record PaginatedResponse (T : Type) := {
  page_data : list T;
  page_success : bool;
  page_timestamp : Z;
  total : nat;
  page : nat;
  pageSize : nat;
  hasMore : bool;
}.
Arguments page_data {T} _.
Arguments page_success {T} _.
Arguments page_timestamp {T} _.
Arguments total {T} _.
Arguments page {T} _.
Arguments pageSize {T} _.
Arguments hasMore {T} _.

Record MoodFilter := {
  startDate : option Z;
  endDate : option Z;
  categories : option (list MoodCategory);
  levels : option (list MoodLevel);
}.

(** [Partial<MoodEntry>], the argument of the backend's [update]. *)
Record PartialMoodEntry := {
  p_id : option string;
  p_level : option MoodLevel;
  p_category : option MoodCategory;
  p_note : option (option string);
  p_timestamp : option Z;
  p_userId : option (option string);
}.

(** ** Exceptions *)

(** What a [throw] carries: an [Error] raised by the backend itself, with
    its message, or whatever a subscribed callback threw. *)
Inductive Thrown :=
  | ServerError (msg : string)
  | CallbackError (msg : string).

Inductive Outcome (A : Type) :=
  | Returned (a : A)
  | Threw (t : Thrown).
Arguments Returned {A} _.
Arguments Threw {A} _.

(** ** Sorting *)

(** [Array.prototype.sort(compare)] is a stable sort; on a comparator that
    is a consistent order its result is the unique stable arrangement, here
    computed by insertion.  [compare a b <= 0] keeps [a] before [b]. *)
Fixpoint insertBy {A} (compare : A -> A -> Z) (x : A) (l : list A) : list A :=
  match l with
  | [] => [x]
  | y :: l' =>
      if compare x y <=? 0 then x :: y :: l' else y :: insertBy compare x l'
  end.

Definition sortBy {A} (compare : A -> A -> Z) (l : list A) : list A :=
  foldr (insertBy compare) [] l.

(** [(a, b) => b.timestamp - a.timestamp] *)
Definition byTimestampDesc (a b : MoodEntry) : Z := timestamp b - timestamp a.

(** ** Local time *)

Definition msPerDay : Z := 24 * 60 * 60 * 1000.

(** The host's time zone: the offset, in milliseconds, that local wall-clock
    time has from UTC at a given instant.  It varies with the instant where
    daylight saving time is observed. *)
Definition TimeZone := Z -> Z.

(** Local wall-clock reading of an instant, its calendar day, and the time
    elapsed on the wall clock since that day's 00:00:00.000. *)
Definition localTime (tz : TimeZone) (t : Z) : Z := t + tz t.
Definition localDate (tz : TimeZone) (t : Z) : Z := localTime tz t / msPerDay.
Definition localTimeOfDay (tz : TimeZone) (t : Z) : Z :=
  localTime tz t mod msPerDay.

(** What [new Date(now.getFullYear(), now.getMonth(), now.getDate()).getTime()]
    yields: an instant of the calendar day of [now] whose wall-clock reading
    is 00:00:00.000. *)
Definition isStartOfLocalDay (tz : TimeZone) (now s : Z) : Prop :=
  localDate tz s = localDate tz now /\ localTimeOfDay tz s = 0.

(** A zone with a fixed offset. *)
Definition fixedZone (off : Z) : TimeZone := fun _ => off.

(** A zone whose offset changes from [before] to [after] at instant [at_]. *)
Definition switchingZone (at_ before after : Z) : TimeZone :=
  fun t => if t <? at_ then before else after.

(** ** The mock backend ([src/api/mockServer.ts]) *)

Module Server.

Record MockDatabase := { moods : list MoodEntry }.

Section WithWorld.

(** Whatever the subscribed callbacks act upon (the ledger, the query cache,
    the screen).  Callbacks do not touch the backend's own state. *)
Context {World : Type}.

(** [(event: RealtimeEvent) => void]: the world the call leaves behind and,
    when the call ended in a [throw], the message thrown. *)
Definition EventCallback := RealtimeEvent -> World -> World * option string.

(** [Set<EventCallback>]: a set iterates in insertion order and holds a
    function at most once; the [nat] is the identity of the function object. *)
Definition Listeners := list (nat * EventCallback).

Record State := {
  database : MockDatabase;
  (** the document under [STORAGE_KEY] in [localStorage] *)
  storage : option MockDatabase;
  eventListeners : Listeners;
  world : World;
}.

Definition subscribe (key : nat) (cb : EventCallback) (ls : Listeners)
    : Listeners :=
  if bool_decide (key ∈ ls.*1) then ls else ls ++ [(key, cb)].

(** The function [subscribe] returns. *)
Definition unsubscribe (key : nat) (ls : Listeners) : Listeners :=
  filter (fun kc => kc.1 ≠ key) ls.

(** The run of [eventListeners.forEach(cb => cb(event))]. *)
Record Emission := {
  after : World;
  (** the callbacks that were called, in the order of the calls *)
  invoked : list nat;
  (** the exception that left [forEach], if one did *)
  thrown : option string;
}.

Fixpoint emit (ls : Listeners) (event : RealtimeEvent) (w : World)
    : Emission :=
  match ls with
  | [] => {| after := w; invoked := []; thrown := None |}
  | (key, cb) :: rest =>
      match cb event w with
      | (w', Some ex) => {| after := w'; invoked := [key]; thrown := Some ex |}
      | (w', None) =>
          let r := emit rest event w' in
          {| after := after r; invoked := key :: invoked r;
             thrown := thrown r |}
      end
  end.

(** The world the callbacks leave behind when each of them, called in
    order on the world its predecessor left, returns normally; [None] when
    one of them throws. *)
Fixpoint returnsNormally (ls : Listeners) (event : RealtimeEvent) (w : World)
    : option World :=
  match ls with
  | [] => Some w
  | (_, cb) :: rest =>
      match cb event w with
      | (w', None) => returnsNormally rest event w'
      | (_, Some _) => None
      end
  end.

Definition saveDatabase (db : MockDatabase) (st : State) : State :=
  {| database := database st; storage := Some db;
     eventListeners := eventListeners st; world := world st |}.

Definition setDatabase (db : MockDatabase) (st : State) : State :=
  {| database := db; storage := storage st;
     eventListeners := eventListeners st; world := world st |}.

(** [mockEventEmitter.emit(event)] inside an operation, followed by the rest
    [k] of the operation when no callback threw. *)
Definition emitThen {A} (event : RealtimeEvent) (st : State)
    (k : State -> Outcome A * State) : Outcome A * State :=
  let r := emit (eventListeners st) event (world st) in
  let st' := {| database := database st; storage := storage st;
                eventListeners := eventListeners st; world := after r |} in
  match thrown r with
  | Some ex => (Threw (CallbackError ex), st')
  | None => k st'
  end.

(** A number used as a condition: [undefined] and [0] are falsy. *)
Definition truthyNumber (o : option Z) : bool :=
  match o with Some z => negb (z =? 0) | None => false end.

(** [filter?.categories?.length]: falsy when absent or empty. *)
Definition truthyLength {A} (o : option (list A)) : bool :=
  match o with Some (_ :: _) => true | _ => false end.

(** [getAll(filter)]; [now] is the value of [Date.now()]. *)
Definition getAll (f : option MoodFilter) (now : Z) (db : MockDatabase)
    : PaginatedResponse MoodEntry :=
  let moods0 := moods db in
  let moods1 :=
    if truthyNumber (f ≫= startDate)
    then List.filter (fun m => default 0 (f ≫= startDate) <=? timestamp m) moods0
    else moods0 in
  let moods2 :=
    if truthyNumber (f ≫= endDate)
    then List.filter (fun m => timestamp m <=? default 0 (f ≫= endDate)) moods1
    else moods1 in
  let moods3 :=
    if truthyLength (f ≫= categories)
    then List.filter
           (fun m => includes (default [] (f ≫= categories)) (category m)) moods2
    else moods2 in
  let moods4 :=
    if truthyLength (f ≫= levels)
    then List.filter
           (fun m => includes (default [] (f ≫= levels)) (level m)) moods3
    else moods3 in
  let sorted := sortBy byTimestampDesc moods4 in
  {| page_data := sorted; page_success := true; page_timestamp := now;
     total := length sorted; page := 1; pageSize := length sorted;
     hasMore := false |}.

Definition notFound : Thrown := ServerError "Mood not found"%string.

(** [getById(id)] *)
Definition getById (i : string) (now : Z) (st : State)
    : Outcome (ApiResponse MoodEntry) * State :=
  match List.find (fun m => String.eqb (id m) i) (moods (database st)) with
  | None => (Threw notFound, st)
  | Some mood =>
      (Returned {| data := mood; success := true; resp_timestamp := now |}, st)
  end.

(** [create(entry)]; [u] is the value of [uuid()], [tEvent] and [tReturn]
    the two readings of [Date.now()].  The argument has no [id] field, so
    the [id] of [entry] is not read. *)
Definition create (entry : MoodEntry) (u : string) (tEvent tReturn : Z)
    (st : State) : Outcome (ApiResponse MoodEntry) * State :=
  let newMood := {| id := u; level := level entry; category := category entry;
                    note := note entry; timestamp := timestamp entry;
                    userId := userId entry |} in
  let db := {| moods := newMood :: moods (database st) |} in
  let st1 := saveDatabase db (setDatabase db st) in
  emitThen {| ev_type := mood_created; ev_payload := PEntry newMood;
              ev_timestamp := tEvent |} st1
    (fun st2 =>
       (Returned {| data := newMood; success := true;
                    resp_timestamp := tReturn |}, st2)).

(** [{ ...mood, ...updates }] *)
Definition spread (m : MoodEntry) (u : PartialMoodEntry) : MoodEntry :=
  {| id := default (id m) (p_id u);
     level := default (level m) (p_level u);
     category := default (category m) (p_category u);
     note := default (note m) (p_note u);
     timestamp := default (timestamp m) (p_timestamp u);
     userId := default (userId m) (p_userId u) |}.

(** [update(id, updates)]; [ms !!! index] reads [database.moods[index]] at
    an index that [findIndex] returned. *)
Definition update (i : string) (updates : PartialMoodEntry)
    (tEvent tReturn : Z) (st : State)
    : Outcome (ApiResponse MoodEntry) * State :=
  match findIndex (fun m => String.eqb (id m) i) (moods (database st)) with
  | None => (Threw notFound, st)
  | Some index =>
      let ms := alter (fun m => spread m updates) index (moods (database st)) in
      let db := {| moods := ms |} in
      let st1 := saveDatabase db (setDatabase db st) in
      emitThen {| ev_type := mood_updated; ev_payload := PEntry (ms !!! index);
                  ev_timestamp := tEvent |} st1
        (fun st2 =>
           (Returned {| data := ms !!! index; success := true;
                        resp_timestamp := tReturn |}, st2))
  end.

(** [delete(id)] *)
Definition delete (i : string) (tEvent tReturn : Z) (st : State)
    : Outcome (ApiResponse unit) * State :=
  match findIndex (fun m => String.eqb (id m) i) (moods (database st)) with
  | None => (Threw notFound, st)
  | Some index =>
      let db := {| moods := base.delete index (moods (database st)) |} in
      let st1 := saveDatabase db (setDatabase db st) in
      emitThen {| ev_type := mood_deleted; ev_payload := PDeleted i;
                  ev_timestamp := tEvent |} st1
        (fun st2 =>
           (Returned {| data := tt; success := true;
                        resp_timestamp := tReturn |}, st2))
  end.

(** [getToday()]; [startOfDay] is the value of
    [new Date(now.getFullYear(), now.getMonth(), now.getDate()).getTime()]
    and [tReturn] that of [Date.now()]. *)
Definition getToday (startOfDay : Z) (tReturn : Z) (db : MockDatabase)
    : ApiResponse (list MoodEntry) :=
  let endOfDay := startOfDay + 24 * 60 * 60 * 1000 - 1 in
  let todayMoods :=
    sortBy byTimestampDesc
      (List.filter
         (fun m => (startOfDay <=? timestamp m) && (timestamp m <=? endOfDay))
         (moods db)) in
  {| data := todayMoods; success := true; resp_timestamp := tReturn |}.

(** [byCategory[c] = (byCategory[c] || 0) + 1] on an object whose keys keep
    their insertion order. *)
Fixpoint bump (c : MoodCategory) (m : list (MoodCategory * Z))
    : list (MoodCategory * Z) :=
  match m with
  | [] => [(c, 0 + 1)]
  | (k, n) :: m' =>
      if decide (k = c)
      then (k, (if n =? 0 then 0 else n) + 1) :: m'
      else (k, n) :: bump c m'
  end.

Record Stats := {
  average : Q;
  count : nat;
  byCategory : list (MoodCategory * Z);
}.

(** [getStats(startDate, endDate)]; [average] holds the exact quotient of
    the two integers, of which the code returns the nearest double (see
    [Backend.returnedAverage]). *)
Definition getStats (startDate endDate : Z) (now : Z) (db : MockDatabase)
    : ApiResponse Stats :=
  let ms :=
    List.filter
      (fun m => (startDate <=? timestamp m) && (timestamp m <=? endDate))
      (moods db) in
  let acc :=
    foldl (fun '(byCat, tot) m => (bump (category m) byCat, tot + levelValue (level m)))
          ([], 0) ms in
  {| data :=
       {| average :=
            if (length ms =? 0)%nat then 0%Q
            else (inject_Z acc.2 / inject_Z (Z.of_nat (length ms)))%Q;
          count := length ms;
          byCategory := acc.1 |};
     success := true; resp_timestamp := now |}.

(** No stored entry has the id. *)
Definition absent (i : string) (st : State) : Prop :=
  forall m, m ∈ moods (database st) -> id m ≠ i.

End WithWorld.

Arguments EventCallback : clear implicits.
Arguments Listeners : clear implicits.
Arguments State : clear implicits.
Arguments Emission : clear implicits.

End Server.

(** ** Identifiers *)

(** The characters [uuid()] (the v4 generator of the npm package [uuid])
    draws from, besides the dash. *)
Definition isHexDigit (a : ascii) : bool :=
  let n := nat_of_ascii a in
  ((48 <=? n)%nat && (n <=? 57)%nat) || ((97 <=? n)%nat && (n <=? 102)%nat).

Definition isDash (a : ascii) : bool := (nat_of_ascii a =? 45)%nat.

(** The shape [xxxxxxxx-xxxx-4xxx-yxxx-xxxxxxxxxxxx] of a version 4 UUID:
    36 characters, dashes at positions 8, 13, 18 and 23, hexadecimal digits
    elsewhere, the digit [4] at position 14 and one of [8 9 a b] at
    position 19. *)
Fixpoint uuidShape (pos : nat) (cs : list ascii) : bool :=
  match cs with
  | [] => (pos =? 36)%nat
  | a :: cs' =>
      (if bool_decide (pos ∈ [8; 13; 18; 23]%nat) then isDash a
       else if (pos =? 14)%nat then (nat_of_ascii a =? 52)%nat
       else if (pos =? 19)%nat
            then bool_decide (nat_of_ascii a ∈ [56; 57; 97; 98]%nat)
            else isHexDigit a)
      && uuidShape (S pos) cs'
  end.

Definition isUuidV4 (u : string) : bool :=
  uuidShape 0 (list_ascii_of_string u).

(** An id that carries the reserved prefix of the ledger's temporary ids. *)
Definition isTemporaryId (i : string) : bool :=
  String.prefix Ledger.tempPrefix i.

(** ** Filters *)

(** The filter as the specification words it: every field that is present
    constrains the entry. *)
Definition satisfiesEveryPresentField (f : MoodFilter) (m : MoodEntry) : Prop :=
  (forall s, startDate f = Some s -> s <= timestamp m) /\
  (forall e, endDate f = Some e -> timestamp m <= e) /\
  (forall cs, categories f = Some cs -> category m ∈ cs) /\
  (forall ls, levels f = Some ls -> level m ∈ ls).

(** The filter as [getAll] applies it: a bound constrains the entry when it
    is present and not [0], a set when it is present and not empty. *)
Definition selects (f : option MoodFilter) (m : MoodEntry) : Prop :=
  (forall s, f ≫= startDate = Some s -> s <> 0 -> s <= timestamp m) /\
  (forall e, f ≫= endDate = Some e -> e <> 0 -> timestamp m <= e) /\
  (forall cs, f ≫= categories = Some cs -> cs <> [] -> category m ∈ cs) /\
  (forall ls, f ≫= levels = Some ls -> ls <> [] -> level m ∈ ls).

(** The same conjunction as one predicate of [Array.prototype.filter]. *)
Definition selectsb (f : option MoodFilter) (m : MoodEntry) : bool :=
  (if Server.truthyNumber (f ≫= startDate)
   then default 0 (f ≫= startDate) <=? timestamp m else true)
  && (if Server.truthyNumber (f ≫= endDate)
      then timestamp m <=? default 0 (f ≫= endDate) else true)
  && (if Server.truthyLength (f ≫= categories)
      then includes (default [] (f ≫= categories)) (category m) else true)
  && (if Server.truthyLength (f ≫= levels)
      then includes (default [] (f ≫= levels)) (level m) else true).

(** Most recent first. *)
Definition descending (ms : list MoodEntry) : Prop :=
  StronglySorted (fun a b => timestamp b <= timestamp a) ms.

(** ** Sample data used by the examples *)

Module Samples.
Import Ledger.

Definition entryWith (i : string) (c : MoodCategory) (l : MoodLevel) (t : Z)
    : MoodEntry :=
  {| id := i; level := l; category := c; note := None; timestamp := t;
     userId := None |}.

Definition tempId1 : string := "temp-1b4e28ba-2fa1-41d2-883f-0016d3cca427"%string.
Definition serverId1 : string := "9f8c1a52-0d3e-4b7a-a1c6-5e2f7d9b0c13"%string.

Definition pendingEntry : MoodEntry := entryWith tempId1 happy L4 1000.
Definition confirmedEntry : MoodEntry := entryWith serverId1 happy L4 1000.

(** A ledger that holds one entry with a temporary id, and one that holds a
    confirmed entry before it. *)
Definition onePending : MoodState := addRealtimeEntry pendingEntry initial.
Definition twoEntries : MoodState := addRealtimeEntry confirmedEntry onePending.

(** The ledger the specification expects after a create, the one the recipe
    of [addEntry] would leave on the initial store were it to complete: the
    pending entry at the head of the array and tracked in the map. *)
Definition expectedAfterCreate : MoodState :=
  (addEntryWith true "1b4e28ba-2fa1-41d2-883f-0016d3cca427" 1000 happy L4 None
     initial).2.

(** Callbacks that note their call in the world, a list of tags; the
    second of them throws after doing so. *)
Definition noting (tag : nat) : Server.EventCallback (list nat) :=
  fun _ w => (w ++ [tag], None).
Definition noting_then_throwing (tag : nat) (msg : string)
    : Server.EventCallback (list nat) :=
  fun _ w => (w ++ [tag], Some msg).

Definition threeListeners : Server.Listeners (list nat) :=
  Server.subscribe 3 (noting 3)
    (Server.subscribe 2 (noting_then_throwing 2 "listener failed")
       (Server.subscribe 1 (noting 1) [])).

Definition syncEvent : RealtimeEvent :=
  {| ev_type := sync_complete; ev_payload := PNull; ev_timestamp := 0 |}.

Definition happyEntry : MoodEntry := entryWith serverId1 happy L5 2000.
Definition calmEntry : MoodEntry :=
  entryWith "3c0a7e11-6b2d-4f0e-9a55-0b1c2d3e4f50" calm L2 3000.

Definition sampleDatabase : Server.MockDatabase :=
  {| Server.moods := [happyEntry; calmEntry] |}.

Definition sampleServer : Server.State (list nat) :=
  {| Server.database := sampleDatabase;
     Server.storage := Some sampleDatabase;
     Server.eventListeners := threeListeners;
     Server.world := [] |}.

Definition noFilter : MoodFilter :=
  {| startDate := None; endDate := None; categories := None; levels := None |}.

(** [{ categories: [] }] *)
Definition emptyCategories : MoodFilter :=
  {| startDate := None; endDate := None; categories := Some [];
     levels := None |}.

(** [{ categories: ['happy'], levels: [4, 5] }] *)
Definition happyAndHigh : MoodFilter :=
  {| startDate := None; endDate := None; categories := Some [happy];
     levels := Some [L4; L5] |}.

(** US Eastern time around the end of daylight saving time in 2026: UTC-4
    until 2026-11-01T06:00:00Z, UTC-5 from then on. *)
Definition easternAutumn2026 : TimeZone :=
  switchingZone 1793512800000 (-4 * 60 * 60 * 1000) (-5 * 60 * 60 * 1000).

(** 2026-11-01 12:00:00.000 local, the local midnight that began that day,
    and an entry made at 23:59:59.999 local on the same day. *)
Definition noonNov1 : Z := 1793552400000.
Definition midnightNov1 : Z := 1793505600000.
Definition lateEntry : MoodEntry :=
  entryWith "5d1e9c40-7a3b-4c2d-8e6f-112233445566" tired L2 1793595599999.

(** US Eastern time around the start of daylight saving time in 2026: UTC-5
    until 2026-03-08T07:00:00Z, UTC-4 from then on; noon and local midnight
    of that day, and an entry made at 00:00:00.000 local on the next day. *)
Definition easternSpring2026 : TimeZone :=
  switchingZone 1772953200000 (-5 * 60 * 60 * 1000) (-4 * 60 * 60 * 1000).
Definition noonMar8 : Z := 1772985600000.
Definition midnightMar8 : Z := 1772946000000.
Definition nextDayEntry : MoodEntry :=
  entryWith "6e2f0d51-8b4c-4d3e-9f70-223344556677" calm L3 1773028800000.

End Samples.

(** ** The rest of the store ([src/stores/moodStore.ts]) *)

Module Store.
Import Immer Ledger.

Definition setLoading (loading : bool) (s : MoodState) : MoodState :=
  {| entries := entries s; pendingEntries := pendingEntries s;
     isLoading := loading; isSyncing := isSyncing s;
     error := error s; lastSyncAt := lastSyncAt s |}.

Definition setSyncing (syncing : bool) (s : MoodState) : MoodState :=
  {| entries := entries s; pendingEntries := pendingEntries s;
     isLoading := isLoading s; isSyncing := syncing;
     error := error s; lastSyncAt := lastSyncAt s |}.

Definition clearError (s : MoodState) : MoodState :=
  {| entries := entries s; pendingEntries := pendingEntries s;
     isLoading := isLoading s; isSyncing := isSyncing s;
     error := None; lastSyncAt := lastSyncAt s |}.

(** The array [updateEntry] leaves behind, as its body computes it. *)
Definition patchFirst (i : string) (u : EntryUpdates) (es : list MoodEntry)
    : list MoodEntry :=
  match findIndex (fun e => String.eqb (id e) i) es with
  | Some index => alter (fun e => assign e u) index es
  | None => es
  end.

(** What [partialize] hands to the [persist] middleware:
    [{ entries: state.entries.slice(0, 500), lastSyncAt: state.lastSyncAt }]. *)
Record PersistedState := {
  persistedEntries : list MoodEntry;
  persistedLastSyncAt : option Z;
}.

Definition partialize (s : MoodState) : PersistedState :=
  {| persistedEntries := take 500 (entries s);
     persistedLastSyncAt := lastSyncAt s |}.

(** The actions of the store, as values, and a store driven by a sequence
    of them.  An action that throws leaves the store as it was and the next
    action finds it so. *)
Inductive Action :=
  | AddEntry (u : string) (now : Z) (c : MoodCategory) (l : MoodLevel)
             (n : option string)
  | UpdateEntry (i : string) (u : EntryUpdates)
  | DeleteEntry (i : string)
  | ConfirmEntry (tempId : string) (confirmedEntry : MoodEntry)
  | RejectEntry (tempId : string) (err : string)
  | SetEntries (now : Z) (es : list MoodEntry)
  | AddRealtimeEntry (entry : MoodEntry)
  | SetLoading (loading : bool)
  | SetSyncing (syncing : bool)
  | ClearError.

Definition act (a : Action) (s : MoodState) : MoodState :=
  match a with
  | AddEntry u now c l n => (addEntry u now c l n s).2
  | UpdateEntry i u => updateEntry i u s
  | DeleteEntry i => (deleteEntry i s).2
  | ConfirmEntry t c => (confirmEntry t c s).2
  | RejectEntry t err => (rejectEntry t err s).2
  | SetEntries now es => setEntries now es s
  | AddRealtimeEntry e => addRealtimeEntry e s
  | SetLoading b => setLoading b s
  | SetSyncing b => setSyncing b s
  | ClearError => clearError s
  end.

Definition run (acts : list Action) (s : MoodState) : MoodState :=
  foldl (fun s a => act a s) s acts.

(** Every list handed to [setEntries] in the sequence is without repeated
    ids. *)
Definition setsDistinctLists (acts : list Action) : Prop :=
  Forall (fun a => match a with
                   | SetEntries _ es => distinctIds es
                   | _ => True
                   end) acts.

(** The actions whose recipe reads [state.pendingEntries]. *)
Definition readsPendingEntries (a : Action) : bool :=
  match a with
  | AddEntry _ _ _ _ _ | DeleteEntry _ | ConfirmEntry _ _ | RejectEntry _ _ =>
      true
  | _ => false
  end.

(** A sequence of actions: an event brings an entry with a temporary id, a
    create is attempted, the event of the create brings the confirmed entry,
    the response is reconciled, the confirmed entry is edited, a fetched
    list replaces the entries, and the two events arrive again. *)
Definition sampleRun : list Action :=
  [ AddRealtimeEntry Samples.pendingEntry;
    AddEntry "ab" 5 calm L3 None;
    AddRealtimeEntry Samples.confirmedEntry;
    ConfirmEntry Samples.tempId1 Samples.confirmedEntry;
    UpdateEntry Samples.serverId1
      {| upd_level := Some L1; upd_category := None; upd_note := None |};
    SetEntries 7 [Samples.calmEntry; Samples.happyEntry];
    AddRealtimeEntry Samples.confirmedEntry;
    AddRealtimeEntry Samples.pendingEntry;
    RejectEntry Samples.tempId1 "Failed to create mood entry";
    DeleteEntry Samples.serverId1 ].

End Store.

(** ** The rest of the mock backend ([src/api/mockServer.ts]) *)

Module Backend.
Import Server.

Section WithWorld.
Context {World : Type}.

(** [loadDatabase()]: the stored document when there is one, an empty
    database otherwise.  [JSON.parse] is taken to give back the document that
    [JSON.stringify] wrote. *)
Definition loadDatabase (st : State World) : MockDatabase :=
  default {| moods := [] |} (storage st).

(** [mockServer.reset()] *)
Definition reset (st : State World) : State World :=
  let db := {| moods := [] |} in
  saveDatabase db (setDatabase db st).

(** [mockServer.seed(entries)] *)
Definition seed (entries : list MoodEntry) (st : State World) : State World :=
  let db := {| moods := entries |} in
  saveDatabase db (setDatabase db st).

End WithWorld.

(** The entry [create] stores: [{ ...entry, id: uuid() }]. *)
Definition stored (entry : MoodEntry) (u : string) : MoodEntry :=
  {| id := u; level := level entry; category := category entry;
     note := note entry; timestamp := timestamp entry;
     userId := userId entry |}.

(** The array [delete] leaves behind:
    [index = moods.findIndex(m => m.id === id)], then [moods.splice(index, 1)]. *)
Definition removeFirst (i : string) (ms : list MoodEntry) : list MoodEntry :=
  match findIndex (fun m => String.eqb (id m) i) ms with
  | Some index => base.delete index ms
  | None => ms
  end.

(** The array [update] leaves behind:
    [moods[index] = { ...moods[index], ...updates }]. *)
Definition mergeFirst (i : string) (updates : PartialMoodEntry)
    (ms : list MoodEntry) : list MoodEntry :=
  match findIndex (fun m => String.eqb (id m) i) ms with
  | Some index => alter (fun m => spread m updates) index ms
  | None => ms
  end.

(** The stored entries [getStats] looks at. *)
Definition inRange (from to : Z) (db : MockDatabase) : list MoodEntry :=
  List.filter (fun m => (from <=? timestamp m) && (timestamp m <=? to))
              (moods db).

(** The sum of the values of an object used as a counter. *)
Definition sumOfValues (m : list (MoodCategory * Z)) : Z :=
  foldr (fun kn acc => kn.2 + acc) 0 m.

(** The sum of the levels of a list of entries. *)
Definition sumOfLevels (ms : list MoodEntry) : Z :=
  foldr (fun m acc => levelValue (level m) + acc) 0 ms.

(** The filter [{ startDate, endDate }]. *)
Definition between (from to : Z) : MoodFilter :=
  {| startDate := Some from; endDate := Some to;
     categories := None; levels := None |}.

(** The value an object used as a counter holds under a key, [0] when the
    key is not there. *)
Fixpoint countOf (c : MoodCategory) (m : list (MoodCategory * Z)) : Z :=
  match m with
  | [] => 0
  | (k, n) :: m' => if decide (k = c) then n else countOf c m'
  end.

(** The number [getStats] returns as the average: [0] when the range is
    empty, and otherwise the quotient as the division rounds it, [fl] being
    that rounding (for a [number], to the nearest double). *)
Definition returnedAverage (fl : Q -> Q) (r : Server.Stats) : Q :=
  if (Server.count r =? 0)%nat then 0%Q else fl (Server.average r).

(** A rounding to the nearest multiple of one eighth, halves upwards. *)
Definition toEighths (q : Q) : Q :=
  (inject_Z (Qfloor (q * 8 + (1 # 2))) / 8)%Q.

End Backend.

(** ** The timeline ([src/hooks/useTimeline.ts]) *)

Module Timeline.

(** [MOOD_COLORS] of [src/types/index.ts]. *)
Definition MOOD_COLORS (c : MoodCategory) : string :=
  match c with
  | calm => "#7DD3FC" | happy => "#FCD34D" | energetic => "#F97316"
  | anxious => "#A78BFA" | tired => "#94A3B8" | focused => "#34D399"
  | stressed => "#F87171" | grateful => "#FB7185"
  end.

(** [Object.keys(MOOD_COLORS)] *)
Definition categoryKeys : list MoodCategory :=
  [calm; happy; energetic; anxious; tired; focused; stressed; grateful].

Record TimelineSegment := {
  startTime : Z;
  endTime : Z;
  mood : MoodEntry;
  color : string;
  intensity : Q;
}.

Record TimelineData := {
  segments : list TimelineSegment;
  currentMood : option MoodEntry;
  moodCounts : list (MoodCategory * Z);
  averageLevel : Q;
  totalEntries : nat;
  dominantMood : option MoodCategory;
}.

(** [(a, b) => a.timestamp - b.timestamp] *)
Definition byTimestampAsc (a b : MoodEntry) : Z := timestamp a - timestamp b.

(** The [forEach] over [Object.entries(moodCounts)] that looks for the
    dominant mood, with its two variables [dominantMood] and [maxCount]. *)
Definition dominantOf (counts : list (MoodCategory * Z))
    : option MoodCategory * Z :=
  foldl (fun '(dominant, maxCount) '(c, n) =>
           if maxCount <? n then (Some c, n) else (dominant, maxCount))
        (None, 0) counts.

(** The body of the [useMemo] of [useTimeline]; [now] is the value of
    [Date.now()], read for the last segment only.  Quotients are kept
    exact. *)
Definition timelineData (entries : list MoodEntry) (now : Z) : TimelineData :=
  if (length entries =? 0)%nat then
    {| segments := []; currentMood := None; moodCounts := [];
       averageLevel := 0%Q; totalEntries := 0; dominantMood := None |}
  else
    let sortedEntries := sortBy byTimestampAsc entries in
    let current := sortedEntries !! (length sortedEntries - 1)%nat in
    let acc :=
      foldl (fun '(counts, levelSum) entry =>
               (Server.bump (category entry) counts,
                levelSum + levelValue (level entry)))
            ([], 0) sortedEntries in
    let average :=
      if (0 <? length sortedEntries)%nat
      then (inject_Z acc.2 / inject_Z (Z.of_nat (length sortedEntries)))%Q
      else 0%Q in
    let segs :=
      imap (fun index entry =>
              {| startTime := timestamp entry;
                 endTime := match sortedEntries !! (index + 1)%nat with
                            | Some nextEntry => timestamp nextEntry
                            | None => now
                            end;
                 mood := entry;
                 color := MOOD_COLORS (category entry);
                 intensity := (inject_Z (levelValue (level entry)) / 5)%Q |})
           sortedEntries in
    {| segments := segs; currentMood := current; moodCounts := acc.1;
       averageLevel := average; totalEntries := length sortedEntries;
       dominantMood := (dominantOf acc.1).1 |}.

(** An item of [useMoodFlow]. *)
Record FlowItem := {
  flowCategory : MoodCategory;
  flowColor : string;
  flowCount : nat;
  flowPercentage : Q;
  flowAverageLevel : Q;
}.

(** The body of the [useMemo] of [useMoodFlow]. *)
Definition moodFlow (entries : list MoodEntry) : list FlowItem :=
  List.filter (fun item => (0 <? flowCount item)%nat)
    (List.map
       (fun c =>
          let categoryEntries :=
            List.filter (fun e => bool_decide (category e = c)) entries in
          let levelSum :=
            foldl (fun sum e => sum + levelValue (level e)) 0
                  categoryEntries in
          {| flowCategory := c;
             flowColor := MOOD_COLORS c;
             flowCount := length categoryEntries;
             flowPercentage :=
               if (0 <? length entries)%nat
               then (inject_Z (Z.of_nat (length categoryEntries))
                     / inject_Z (Z.of_nat (length entries)) * 100)%Q
               else 0%Q;
             flowAverageLevel :=
               if (0 <? length categoryEntries)%nat
               then (inject_Z levelSum
                     / inject_Z (Z.of_nat (length categoryEntries)))%Q
               else 0%Q |})
       categoryKeys).

(** The entries of a category, as [useMoodFlow] selects them. *)
Definition ofCategory (c : MoodCategory) (entries : list MoodEntry)
    : list MoodEntry :=
  List.filter (fun e => bool_decide (category e = c)) entries.

(** Oldest first. *)
Definition ascending (ms : list MoodEntry) : Prop :=
  StronglySorted (fun a b => timestamp a <= timestamp b) ms.

End Timeline.

(** ** Optimistic mutations ([src/api/queries.ts]) *)

(** The callbacks [useCreateMood] and [useDeleteMood] hand to [useMutation],
    as transformers of what they read and write synchronously: the store and
    the cached data of the queries [queryKeys.today()] and
    [queryKeys.lists()].  Each [onMutate] is modelled from the point where its
    awaited [cancelQueries] calls have resumed; [cancelQueries] and
    [invalidateQueries] act on fetches in flight and on staleness, which are
    not part of this state.  A store action that throws ends the callback
    that called it. *)
Module Mutations.
Import Immer Ledger.

Record Client := {
  store : MoodState;
  today : option (ApiResponse (list MoodEntry));
  lists : option (PaginatedResponse MoodEntry);
}.

(** [{ category, level, note? }] *)
Record CreateVariables := {
  v_category : MoodCategory;
  v_level : MoodLevel;
  v_note : option string;
}.

(** What [onMutate] of [useCreateMood] returns. *)
Record CreateContext := {
  previousMoods : option (ApiResponse (list MoodEntry));
  previousList : option (PaginatedResponse MoodEntry);
  tempId : string;
}.

(** A string used as a condition: the empty string is falsy. *)
Definition truthyString (s : string) : bool := negb (String.eqb s "").

Definition rollbackMessage : string := "Failed to create mood entry".

(** [onMutate] of [useCreateMood].  [uContext] and [tOptimistic] are the
    values of the [uuid()] and [Date.now()] it calls itself, [uStore] and
    [tStore] those of the calls inside [addEntry]. *)
Definition createOnMutate (variables : CreateVariables)
    (uContext : string) (tOptimistic : Z) (uStore : string) (tStore : Z)
    (c : Client) : Result CreateContext * Client :=
  let tempId := String.append tempPrefix uContext in
  let optimisticEntry :=
    {| id := tempId; category := v_category variables;
       level := v_level variables; note := v_note variables;
       timestamp := tOptimistic; userId := None |} in
  match addEntry uStore tStore (v_category variables) (v_level variables)
          (v_note variables) (store c) with
  | (Error e, store1) =>
      (Error e, {| store := store1; today := today c; lists := lists c |})
  | (Ok _, store1) =>
      let previousMoods := today c in
      let previousList := lists c in
      let today1 :=
        match today c with
        | Some old =>
            Some {| data := optimisticEntry :: data old;
                    success := success old;
                    resp_timestamp := resp_timestamp old |}
        | None => None
        end in
      (Ok {| previousMoods := previousMoods; previousList := previousList;
             tempId := tempId |},
       {| store := store1; today := today1; lists := lists c |})
  end.

(** [onSuccess] of [useCreateMood]; the context is absent when [onMutate]
    did not return one. *)
Definition createOnSuccess (response : ApiResponse MoodEntry)
    (context : option CreateContext) (c : Client) : Result unit * Client :=
  match context with
  | Some ctx =>
      if truthyString (tempId ctx)
      then
        let r := confirmEntry (tempId ctx) (data response) (store c) in
        (r.1, {| store := r.2; today := today c; lists := lists c |})
      else (Ok tt, c)
  | None => (Ok tt, c)
  end.

(** [onError] of [useCreateMood]. *)
Definition createOnError (context : option CreateContext) (c : Client)
    : Result unit * Client :=
  let c1 :=
    match context ≫= previousMoods with
    | Some previous =>
        {| store := store c; today := Some previous; lists := lists c |}
    | None => c
    end in
  match context with
  | Some ctx =>
      if truthyString (tempId ctx)
      then
        let r := rejectEntry (tempId ctx) rollbackMessage (store c1) in
        (r.1, {| store := r.2; today := today c1; lists := lists c1 |})
      else (Ok tt, c1)
  | None => (Ok tt, c1)
  end.

(** [onMutate] and [onError] of [useDeleteMood]; its context holds
    [previousMoods] only. *)
Definition deleteOnMutate (i : string) (c : Client)
    : Result (option (ApiResponse (list MoodEntry))) * Client :=
  let previousMoods := today c in
  match deleteEntry i (store c) with
  | (Error e, store1) =>
      (Error e, {| store := store1; today := today c; lists := lists c |})
  | (Ok _, store1) =>
      let today1 :=
        match today c with
        | Some old =>
            Some {| data := List.filter
                              (fun m => negb (String.eqb (id m) i)) (data old);
                    success := success old;
                    resp_timestamp := resp_timestamp old |}
        | None => None
        end in
      (Ok previousMoods,
       {| store := store1; today := today1; lists := lists c |})
  end.

Definition deleteOnError
    (context : option (option (ApiResponse (list MoodEntry)))) (c : Client)
    : Client :=
  match mjoin context with
  | Some previous =>
      {| store := store c; today := Some previous; lists := lists c |}
  | None => c
  end.

End Mutations.

(** * Properties of the ledger *)

Module LedgerFacts.
Import Immer Ledger Store.

Section FindIndex.
Context {A : Type} (p : A -> bool).

Lemma findIndex_None (l : list A) :
  findIndex p l = None <-> forall x, x ∈ l -> p x = false.
Proof.
  induction l as [|x l IH]; simpl.
  - split; [intros _ y Hy; inversion Hy | done].
  - destruct (p x) eqn:Hx.
    + split; [done | intros H]. specialize (H x (list_elem_of_here x l)).
      congruence.
    + destruct (findIndex p l) as [i|]; simpl.
      * split; [done | intros H].
        assert (Some i = None) as Hi; [|done].
        apply IH. intros y Hy. apply H. by right.
      * split; [intros _ y Hy | done].
        apply elem_of_cons in Hy as [->|Hy]; [done|]. by apply IH.
Qed.

Lemma findIndex_Some (l : list A) (i : nat) :
  findIndex p l = Some i -> exists x, l !! i = Some x /\ p x = true.
Proof.
  revert i. induction l as [|x l IH]; intros i; simpl; [done|].
  destruct (p x) eqn:Hx.
  - intros [= <-]. by exists x.
  - destruct (findIndex p l) as [j|]; simpl; [|done].
    intros [= <-]. by apply IH.
Qed.

End FindIndex.

Lemma hasId_true (i : string) (e : MoodEntry) :
  String.eqb (id e) i = true <-> id e = i.
Proof. apply String.eqb_eq. Qed.

Lemma hasId_false (i : string) (e : MoodEntry) :
  String.eqb (id e) i = false <-> id e ≠ i.
Proof. apply String.eqb_neq. Qed.

Lemma copies_cons (i : string) (e : MoodEntry) (es : list MoodEntry) :
  copies i (e :: es) =
  if decide (id e = i) then S (copies i es) else copies i es.
Proof. unfold copies. rewrite filter_cons. by destruct (decide (id e = i)). Qed.

Lemma copies_zero (i : string) (es : list MoodEntry) :
  copies i es = 0%nat <-> forall e, e ∈ es -> id e ≠ i.
Proof.
  induction es as [|x es IH].
  - split; [intros _ e He; inversion He | done].
  - rewrite copies_cons. destruct (decide (id x = i)) as [Hx|Hx].
    + split; [done | intros H]. exfalso. apply (H x); [left | done].
    + rewrite IH. split.
      * intros H e He. apply elem_of_cons in He as [->|He]; auto.
      * intros H e He. apply H. by right.
Qed.

Lemma copies_distinct (i : string) (es : list MoodEntry) :
  distinctIds es -> (copies i es <= 1)%nat.
Proof.
  unfold distinctIds. induction es as [|x es IH]; [simpl; unfold copies; simpl; lia|].
  rewrite fmap_cons, NoDup_cons. intros [Hx Hes].
  rewrite copies_cons. destruct (decide (id x = i)) as [<-|_]; [|auto].
  assert (copies (id x) es = 0%nat) as ->; [|lia].
  apply copies_zero. intros e He Hid. apply Hx.
  rewrite <- Hid. apply list_elem_of_fmap. by exists e.
Qed.

Lemma filter_other_ids (i : string) (es : list MoodEntry) :
  (forall e, e ∈ es -> id e ≠ i) ->
  filter (fun e => id e ≠ i) es = es.
Proof.
  induction es as [|x es IH]; intros H; [done|].
  rewrite filter_cons_True by (apply H; left).
  f_equal. apply IH. intros e He. apply H. by right.
Qed.

Lemma replaceFirst_cons (t : string) (c x : MoodEntry) (es : list MoodEntry) :
  replaceFirst t c (x :: es) =
  if decide (id x = t) then c :: es else x :: replaceFirst t c es.
Proof.
  unfold replaceFirst. simpl.
  destruct (decide (id x = t)) as [Hx|Hx].
  - apply hasId_true in Hx. by rewrite Hx.
  - apply hasId_false in Hx. rewrite Hx.
    by destruct (findIndex _ es).
Qed.

Lemma replaceFirst_absent (t : string) (c : MoodEntry) (es : list MoodEntry) :
  copies t es = 0%nat -> replaceFirst t c es = es.
Proof.
  intros H. unfold replaceFirst.
  assert (findIndex (fun e => String.eqb (id e) t) es = None) as ->; [|done].
  apply findIndex_None. intros e He. apply hasId_false.
  by apply (proj1 (copies_zero t es) H).
Qed.

Lemma replaceFirst_twice (t : string) (c : MoodEntry) (es : list MoodEntry) :
  (copies t es <= 1)%nat ->
  replaceFirst t c (replaceFirst t c es) = replaceFirst t c es.
Proof.
  induction es as [|x es IH]; intros H; [done|].
  rewrite copies_cons in H. rewrite replaceFirst_cons.
  destruct (decide (id x = t)) as [Hx|Hx].
  - rewrite replaceFirst_cons.
    destruct (decide (id c = t)); [done|].
    f_equal. apply replaceFirst_absent. lia.
  - rewrite replaceFirst_cons. rewrite decide_False by done.
    f_equal. by apply IH.
Qed.

(** *** How the actions that touch the pending map end *)

(** Each of the four recipes reads [state.pendingEntries]; as the repository
    runs them, that read throws and [set] leaves the store as it was. *)
Lemma addEntry_throws (u : string) (now : Z) (c : MoodCategory)
    (l : MoodLevel) (n : option string) (s : MoodState) :
  addEntry u now c l n s = (Error MapSetNotLoaded, s).
Proof. reflexivity. Qed.

Lemma deleteEntry_throws (i : string) (s : MoodState) :
  deleteEntry i s = (Error MapSetNotLoaded, s).
Proof. reflexivity. Qed.

Lemma confirmEntry_throws (t : string) (c : MoodEntry) (s : MoodState) :
  confirmEntry t c s = (Error MapSetNotLoaded, s).
Proof. reflexivity. Qed.

Lemma rejectEntry_throws (t msg : string) (s : MoodState) :
  rejectEntry t msg s = (Error MapSetNotLoaded, s).
Proof. reflexivity. Qed.

(** Whether the plugin is loaded or not, a call returns normally or leaves
    the store untouched. *)
Lemma setWith_Error (recipe : Recipe) (s : MoodState) (e : ImmerError)
    (s' : MoodState) :
  setWith recipe s = (Error e, s') -> s' = s.
Proof. unfold setWith. destruct (recipe s); by intros [= <-]. Qed.

Lemma some_hasId (i : string) (es : list MoodEntry) :
  some (fun e => String.eqb (id e) i) es = negb (copies i es =? 0)%nat.
Proof.
  unfold some. induction es as [|x es IH]; [done|].
  simpl. rewrite copies_cons, IH.
  destruct (decide (id x = i)) as [Hx|Hx].
  - apply hasId_true in Hx. by rewrite Hx.
  - apply hasId_false in Hx. by rewrite Hx.
Qed.

(** What one [addRealtimeEntry] does to the array, whatever the ledger. *)
Lemma addRealtimeEntry_entries (e : MoodEntry) (s : MoodState) :
  entries (addRealtimeEntry e s) =
  if decide (copies (id e) (entries s) = 0%nat)
  then e :: entries s else entries s.
Proof.
  simpl. rewrite some_hasId, negb_involutive.
  destruct (decide (copies (id e) (entries s) = 0%nat)) as [H|H].
  - by rewrite H.
  - apply Nat.eqb_neq in H. by rewrite H.
Qed.

Lemma addRealtimeEntry_copies (e : MoodEntry) (s : MoodState) :
  copies (id e) (entries (addRealtimeEntry e s)) =
  Nat.max 1 (copies (id e) (entries s)).
Proof.
  rewrite addRealtimeEntry_entries.
  destruct (decide (copies (id e) (entries s) = 0%nat)) as [H|H].
  - rewrite copies_cons, decide_True by done. lia.
  - lia.
Qed.

(** A second delivery of an id the ledger already holds changes nothing. *)
Lemma addRealtimeEntry_present (e : MoodEntry) (s : MoodState) :
  copies (id e) (entries s) <> 0%nat -> addRealtimeEntry e s = s.
Proof.
  intros H. destruct s as [es pe il isy er ls]. unfold addRealtimeEntry.
  simpl in *. rewrite some_hasId. apply Nat.eqb_neq in H. by rewrite H.
Qed.

(** *** Distinct ids *)

Lemma distinctIds_filter (P : MoodEntry -> Prop) `{forall e, Decision (P e)}
    (es : list MoodEntry) :
  distinctIds es -> distinctIds (filter P es).
Proof.
  unfold distinctIds. intros Hes. eapply sublist_NoDup; [exact Hes|].
  apply fmap_sublist, sublist_filter.
Qed.

Lemma distinctIds_copies (es : list MoodEntry) :
  distinctIds es <-> forall i, (copies i es <= 1)%nat.
Proof.
  split; [intros H i; by apply copies_distinct|].
  unfold distinctIds. induction es as [|x es IH]; intros H.
  - apply NoDup_nil_2.
  - rewrite fmap_cons. apply NoDup_cons. split.
    + intros Hin. apply list_elem_of_fmap in Hin as (y & Heq & Hy).
      specialize (H (id x)). rewrite copies_cons, decide_True in H by done.
      assert (copies (id x) es = 0%nat) as H0 by lia.
      by apply (proj1 (copies_zero _ _) H0 y Hy).
    + apply IH. intros i. specialize (H i). rewrite copies_cons in H.
      destruct (decide (id x = i)); lia.
Qed.

Lemma addEntry_distinctIds (u : string) (now : Z) (c : MoodCategory)
    (l : MoodLevel) (n : option string) (s : MoodState) :
  distinctIds (entries s) ->
  distinctIds (entries (addEntry u now c l n s).2).
Proof. by rewrite addEntry_throws. Qed.

Lemma updateEntry_distinctIds (i : string) (u : EntryUpdates) (s : MoodState) :
  distinctIds (entries s) -> distinctIds (entries (updateEntry i u s)).
Proof.
  unfold distinctIds. simpl. destruct (findIndex _ (entries s)) as [k|]; [|done].
  rewrite (list_fmap_alter id (fun e => assign e u) (fun x => x))
    by (by apply Forall_forall).
  by rewrite list_alter_id.
Qed.

Lemma deleteEntry_distinctIds (i : string) (s : MoodState) :
  distinctIds (entries s) -> distinctIds (entries (deleteEntry i s).2).
Proof. by rewrite deleteEntry_throws. Qed.

Lemma confirmEntry_distinctIds (t : string) (c : MoodEntry) (s : MoodState) :
  distinctIds (entries s) -> distinctIds (entries (confirmEntry t c s).2).
Proof. by rewrite confirmEntry_throws. Qed.

Lemma rejectEntry_distinctIds (t msg : string) (s : MoodState) :
  distinctIds (entries s) -> distinctIds (entries (rejectEntry t msg s).2).
Proof. by rewrite rejectEntry_throws. Qed.

Lemma setEntries_distinctIds (now : Z) (es : list MoodEntry) (s : MoodState) :
  distinctIds es -> distinctIds (entries (setEntries now es s)).
Proof. done. Qed.

Lemma addRealtimeEntry_distinctIds (e : MoodEntry) (s : MoodState) :
  distinctIds (entries s) -> distinctIds (entries (addRealtimeEntry e s)).
Proof.
  intros Hes. rewrite addRealtimeEntry_entries.
  destruct (decide (copies (id e) (entries s) = 0%nat)) as [H0|_]; [|done].
  unfold distinctIds. rewrite fmap_cons. apply NoDup_cons. split; [|done].
  intros Hin. apply list_elem_of_fmap in Hin as (x & Heq & Hx).
  by apply (proj1 (copies_zero _ _) H0 x Hx).
Qed.

(** One action of the store, and a sequence of them. *)
Lemma act_distinctIds (a : Action) (s : MoodState) :
  distinctIds (entries s) ->
  setsDistinctLists [a] ->
  distinctIds (entries (act a s)).
Proof.
  intros Hs Ha. unfold setsDistinctLists in Ha.
  rewrite Forall_singleton in Ha. destruct a; simpl in Ha; cbn [act].
  - by apply addEntry_distinctIds.
  - by apply updateEntry_distinctIds.
  - by apply deleteEntry_distinctIds.
  - by apply confirmEntry_distinctIds.
  - by apply rejectEntry_distinctIds.
  - by apply setEntries_distinctIds.
  - by apply addRealtimeEntry_distinctIds.
  - done.
  - done.
  - done.
Qed.

Lemma run_distinctIds (acts : list Action) (s : MoodState) :
  distinctIds (entries s) ->
  setsDistinctLists acts ->
  distinctIds (entries (run acts s)).
Proof.
  unfold run, setsDistinctLists. revert s.
  induction acts as [|a acts IH]; intros s Hs Hacts; [done|].
  apply Forall_cons in Hacts as [Ha Hacts]. simpl. apply IH; [|done].
  apply act_distinctIds; [done|]. by apply Forall_singleton.
Qed.

Lemma initial_distinctIds : distinctIds (entries initial).
Proof. apply NoDup_nil_2. Qed.

(** *** Create and reject, confirm *)

(** C2 (rollback), as the repository runs it: [addEntry] throws inside
    [set] before anything is inserted and returns no entry, and [rejectEntry]
    on the temporary id throws as well, before [state.error] is assigned.
    The entries are those there were before the create, but the [error]
    field is what it was: the message is not stored. *)
Theorem create_then_reject_sets_no_error
    (u : string) (now : Z) (c : MoodCategory) (l : MoodLevel)
    (n : option string) (msg : string) (s : MoodState) :
  let created := addEntry u now c l n s in
  let rejected := rejectEntry (id (newEntry u now c l n)) msg created.2 in
  created = (Error MapSetNotLoaded, s) /\
  rejected = (Error MapSetNotLoaded, s) /\
  entries rejected.2 = entries s /\
  error rejected.2 = error s /\
  (error s <> Some msg -> error rejected.2 <> Some msg).
Proof.
  cbv zeta. rewrite addEntry_throws. cbn [snd]. rewrite rejectEntry_throws.
  by repeat split.
Qed.

(** On the initial store the message is not stored: [error] stays [null]. *)
Example create_then_reject_on_initial :
  let created := addEntry "1b4e28ba-2fa1-41d2-883f-0016d3cca427" 1000
                   happy L4 None initial in
  let rejected := rejectEntry Samples.tempId1 "Failed to create mood entry"
                    created.2 in
  created.1 = Error MapSetNotLoaded /\
  rejected.1 = Error MapSetNotLoaded /\
  entries rejected.2 = [] /\
  error rejected.2 = None.
Proof. by repeat split. Qed.

(** C3 (idempotent confirm), as the repository runs it: [confirmEntry]
    throws inside [set], whatever the ledger holds.  An entry that carries
    the temporary id [t] is not replaced, [t] is tracked as pending after
    the call exactly when it was before, and the confirmed entry is not put
    into the array.  A second call does the same, so calling twice leaves
    the state calling once leaves: the state before the first call. *)
Theorem confirmEntry_replaces_nothing
    (t : string) (c : MoodEntry) (s : MoodState) :
  let once := confirmEntry t c s in
  once = (Error MapSetNotLoaded, s) /\
  (forall e, e ∈ entries s -> id e = t -> e ∈ entries once.2) /\
  pendingEntries once.2 !! t = pendingEntries s !! t /\
  (holdsPending t s -> holdsPending t once.2) /\
  (c ∉ entries s -> c ∉ entries once.2) /\
  confirmEntry t c once.2 = once.
Proof.
  cbv zeta. rewrite confirmEntry_throws. cbn [snd].
  rewrite confirmEntry_throws. by repeat (split; [done|]).
Qed.

(** The ledger the claim describes, with the temporary id tracked as
    pending: after the confirmation it holds the pending entry, not the
    confirmed one, and still tracks the id. *)
Example confirmEntry_on_expected_ledger :
  holdsPending Samples.tempId1 Samples.expectedAfterCreate /\
  (confirmEntry Samples.tempId1 Samples.confirmedEntry
     Samples.expectedAfterCreate).1 = Error MapSetNotLoaded /\
  entries (confirmEntry Samples.tempId1 Samples.confirmedEntry
             Samples.expectedAfterCreate).2 = [Samples.pendingEntry] /\
  pendingEntries (confirmEntry Samples.tempId1 Samples.confirmedEntry
                    Samples.expectedAfterCreate).2 !! Samples.tempId1
    = Some Samples.pendingEntry.
Proof.
  split; [|split; [reflexivity|split; [reflexivity | apply lookup_insert_eq]]].
  split.
  - exists Samples.pendingEntry. apply lookup_insert_eq.
  - exists Samples.pendingEntry. split; [left | reflexivity].
Qed.

(** A ledger the store does reach, holding an entry with a temporary id that
    an event brought: the confirmation leaves that entry in place. *)
Example confirmEntry_on_reached_ledger :
  entries Samples.onePending = [Samples.pendingEntry] /\
  (confirmEntry Samples.tempId1 Samples.confirmedEntry
     Samples.onePending).1 = Error MapSetNotLoaded /\
  entries (confirmEntry Samples.tempId1 Samples.confirmedEntry
             Samples.onePending).2 = [Samples.pendingEntry].
Proof. by repeat split. Qed.

(** *** Realtime ingest *)

(** C4 (dedup on realtime ingest): two calls of [addRealtimeEntry e] leave
    exactly one entry with the id of [e], the second call changes nothing,
    and a call puts [e] at the head exactly when no entry carries its id.
    This holds of every ledger in which at most one entry carries that id,
    hence of every ledger the store reaches, by any sequence of its actions in
    which [setEntries] is handed lists without repeated ids, from a ledger
    without repeated ids, the initial one in particular. *)
Theorem addRealtimeEntry_twice_single_copy (e : MoodEntry) :
  let once s := addRealtimeEntry e s in
  let twice s := addRealtimeEntry e (once s) in
  let holds s :=
    copies (id e) (entries (twice s)) = 1%nat /\
    twice s = once s /\
    entries (once s) = (if decide (copies (id e) (entries s) = 0%nat)
                        then e :: entries s else entries s) in
  (forall s, (copies (id e) (entries s) <= 1)%nat -> holds s) /\
  (forall acts s, distinctIds (entries s) -> setsDistinctLists acts ->
                  holds (run acts s)) /\
  (forall acts, setsDistinctLists acts -> holds (run acts initial)).
Proof.
  cbv zeta.
  assert (forall s, (copies (id e) (entries s) <= 1)%nat ->
            copies (id e)
              (entries (addRealtimeEntry e (addRealtimeEntry e s))) = 1%nat /\
            addRealtimeEntry e (addRealtimeEntry e s) = addRealtimeEntry e s /\
            entries (addRealtimeEntry e s)
              = (if decide (copies (id e) (entries s) = 0%nat)
                 then e :: entries s else entries s)) as Hone.
  { intros s Hs. split; [|split].
    - rewrite !addRealtimeEntry_copies. lia.
    - apply addRealtimeEntry_present. rewrite addRealtimeEntry_copies. lia.
    - apply addRealtimeEntry_entries. }
  split; [exact Hone|]. split.
  - intros acts s Hs Hacts. apply Hone, copies_distinct.
    by apply run_distinctIds.
  - intros acts Hacts. apply Hone, copies_distinct.
    apply run_distinctIds; [apply initial_distinctIds | done].
Qed.

(** A delivery that arrives twice, after an entry with another id. *)
Example addRealtimeEntry_delivered_twice :
  entries (addRealtimeEntry Samples.confirmedEntry
             (addRealtimeEntry Samples.confirmedEntry Samples.onePending))
  = [Samples.confirmedEntry; Samples.pendingEntry].
Proof. reflexivity. Qed.

(** C10 (distinct ids): every action of the ledger leaves the ids of the
    entries pairwise distinct when they were so before, [setEntries] when
    the list it is handed has pairwise distinct ids.  [confirmEntry] leaves
    the entries as they were, so the number of entries that carry the id of
    the confirmed entry does not change: no second one is introduced when
    that id is already present. *)
Theorem actions_keep_ids_distinct
    (s : MoodState) (u : string) (now : Z) (c : MoodCategory) (l : MoodLevel)
    (n : option string) (i : string) (upd : EntryUpdates) (t : string)
    (confirmed : MoodEntry) (msg : string) (es : list MoodEntry)
    (e : MoodEntry) :
  distinctIds (entries s) ->
  distinctIds es ->
  distinctIds (entries (addEntry u now c l n s).2) /\
  distinctIds (entries (updateEntry i upd s)) /\
  distinctIds (entries (deleteEntry i s).2) /\
  distinctIds (entries (confirmEntry t confirmed s).2) /\
  distinctIds (entries (rejectEntry t msg s).2) /\
  distinctIds (entries (setEntries now es s)) /\
  distinctIds (entries (addRealtimeEntry e s)) /\
  copies (id confirmed) (entries (confirmEntry t confirmed s).2)
    = copies (id confirmed) (entries s).
Proof.
  intros Hs Hes. repeat split.
  - by apply addEntry_distinctIds.
  - by apply updateEntry_distinctIds.
  - by apply deleteEntry_distinctIds.
  - by apply confirmEntry_distinctIds.
  - by apply rejectEntry_distinctIds.
  - by apply setEntries_distinctIds.
  - by apply addRealtimeEntry_distinctIds.
Qed.

Lemma twoEntries_distinctIds : distinctIds (entries Samples.twoEntries).
Proof.
  unfold distinctIds.
  change (entries Samples.twoEntries)
    with [Samples.confirmedEntry; Samples.pendingEntry].
  rewrite !fmap_cons. apply NoDup_cons. split; [|apply NoDup_singleton].
  intros H. apply list_elem_of_singleton in H. discriminate H.
Qed.

Lemma calm_then_happy_distinctIds :
  distinctIds [Samples.calmEntry; Samples.happyEntry].
Proof.
  unfold distinctIds.
  rewrite !fmap_cons. apply NoDup_cons. split; [|apply NoDup_singleton].
  intros H. apply list_elem_of_singleton in H. discriminate H.
Qed.

Lemma actions_keep_ids_distinct_witness :
  let s := Samples.twoEntries in
  let t := Samples.tempId1 in
  let confirmed := Samples.confirmedEntry in
  let es := [Samples.calmEntry; Samples.happyEntry] in
  let upd := {| upd_level := Some L1; upd_category := None;
                upd_note := None |} in
  distinctIds (entries s) /\
  distinctIds es /\
  distinctIds (entries (addEntry "ab" 5 calm L3 None s).2) /\
  distinctIds (entries (updateEntry t upd s)) /\
  distinctIds (entries (deleteEntry t s).2) /\
  distinctIds (entries (confirmEntry t confirmed s).2) /\
  distinctIds (entries (rejectEntry t "Failed to create mood entry" s).2) /\
  distinctIds (entries (setEntries 7 es s)) /\
  distinctIds (entries (addRealtimeEntry confirmed s)) /\
  copies (id confirmed) (entries (confirmEntry t confirmed s).2)
    = copies (id confirmed) (entries s).
Proof.
  cbv zeta. split; [exact twoEntries_distinctIds|].
  split; [exact calm_then_happy_distinctIds|].
  exact (actions_keep_ids_distinct Samples.twoEntries "ab" 5 calm L3 None
           Samples.tempId1
           {| upd_level := Some L1; upd_category := None; upd_note := None |}
           Samples.tempId1 Samples.confirmedEntry
           "Failed to create mood entry"
           [Samples.calmEntry; Samples.happyEntry] Samples.confirmedEntry
           twoEntries_distinctIds calm_then_happy_distinctIds).
Defined.

(** The ledger the claim names: the event of a create has put the confirmed
    entry before an entry with a temporary id; the confirmation leaves both
    where they are. *)
Example confirmEntry_after_realtime_entry :
  entries (confirmEntry Samples.tempId1 Samples.confirmedEntry
             Samples.twoEntries).2
  = [Samples.confirmedEntry; Samples.pendingEntry].
Proof. reflexivity. Qed.

(** *** With the MapSet plugin loaded *)

(** What the same recipes would do had [enableMapSet()] been called: none of
    this is run by the repository. *)
Section PluginLoaded.

Lemma addEntryWith_loaded (u : string) (now : Z) (c : MoodCategory)
    (l : MoodLevel) (n : option string) (s : MoodState) :
  let entry := newEntry u now c l n in
  (addEntryWith true u now c l n s).1 = Ok entry /\
  entries (addEntryWith true u now c l n s).2 = entry :: entries s /\
  pendingEntries (addEntryWith true u now c l n s).2 !! id entry = Some entry.
Proof. cbv zeta. split; [done|]. split; [done|]. apply lookup_insert_eq. Qed.

(** The rollback C2 describes. *)
Lemma create_then_reject_with_plugin
    (u : string) (now : Z) (c : MoodCategory) (l : MoodLevel)
    (n : option string) (msg : string) (s : MoodState) :
  (forall e, e ∈ entries s -> id e ≠ String.append tempPrefix u) ->
  let created := addEntryWith true u now c l n s in
  let rejected := rejectEntryWith true (id (newEntry u now c l n)) msg
                    created.2 in
  entries rejected.2 = entries s /\ error rejected.2 = Some msg.
Proof.
  intros Hfresh. simpl. split; [|done].
  rewrite filter_cons_False by (simpl; auto).
  by apply filter_other_ids.
Qed.

(** The replacement C3 describes, and the repeated id C10 excludes. *)
Lemma confirmEntryWith_loaded (t : string) (c : MoodEntry) (s : MoodState) :
  (confirmEntryWith true t c s).1 = Ok tt /\
  entries (confirmEntryWith true t c s).2 = replaceFirst t c (entries s) /\
  pendingEntries (confirmEntryWith true t c s).2 !! t = None.
Proof. split; [done|]. split; [done|]. apply lookup_delete_eq. Qed.

Lemma confirmEntryWith_loaded_repeats_id :
  entries (confirmEntryWith true Samples.tempId1 Samples.confirmedEntry
             Samples.twoEntries).2
    = [Samples.confirmedEntry; Samples.confirmedEntry] /\
  ~ distinctIds (entries (confirmEntryWith true Samples.tempId1
                            Samples.confirmedEntry Samples.twoEntries).2).
Proof.
  split; [reflexivity|]. unfold distinctIds.
  change (entries (confirmEntryWith true Samples.tempId1
                     Samples.confirmedEntry Samples.twoEntries).2)
    with [Samples.confirmedEntry; Samples.confirmedEntry].
  intros H. apply NoDup_cons in H as [H _]. apply H. left.
Qed.

End PluginLoaded.

End LedgerFacts.

(** * Properties of the event emitter *)

Module EmitterFacts.
Import Server.

(** C1, as stated, fails: of three subscribed callbacks the second throws;
    [emit] calls the first two, the exception leaves [forEach], and the third
    callback is never called (the world holds the notes of the first two
    only). *)
Lemma throwing_listener_cuts_emit_short :
  Samples.threeListeners.*1 = [1; 2; 3]%nat /\
  invoked (emit Samples.threeListeners Samples.syncEvent []) = [1; 2]%nat /\
  thrown (emit Samples.threeListeners Samples.syncEvent [])
    = Some "listener failed"%string /\
  after (emit Samples.threeListeners Samples.syncEvent []) = [1; 2]%nat /\
  ~ (forall k, k ∈ Samples.threeListeners.*1 ->
               k ∈ invoked (emit Samples.threeListeners Samples.syncEvent [])).
Proof.
  repeat (split; [reflexivity|]).
  intros H. specialize (H 3%nat).
  assert (3%nat ∈ [1; 2]%nat) as Hin.
  { apply H. change (3%nat ∈ [1; 2; 3]%nat). do 2 right. left. }
  rewrite !elem_of_cons, elem_of_nil in Hin. intuition discriminate.
Qed.

Section Emit.
Context {World : Type} (event : RealtimeEvent).

(** When every callback returns normally, all of them are called and [emit]
    returns normally. *)
Lemma emit_quiet (ls : Listeners World) (w w' : World) :
  returnsNormally ls event w = Some w' ->
  emit ls event w = {| after := w'; invoked := ls.*1; thrown := None |}.
Proof.
  revert w. induction ls as [|[k cb] rest IH]; intros w; simpl.
  - by intros [= ->].
  - destruct (cb event w) as [w1 [ex|]]; [done|].
    intros H. by rewrite (IH _ H).
Qed.

(** When the callbacks before one return normally and that one throws,
    [emit] ends with its exception, and no later callback is called. *)
Lemma emit_throw (pre : Listeners World) (k : nat)
    (cb : EventCallback World) (post : Listeners World)
    (w w1 : World) (ex : string) :
  returnsNormally pre event w = Some w1 ->
  (cb event w1).2 = Some ex ->
  emit (pre ++ (k, cb) :: post) event w
  = {| after := (cb event w1).1; invoked := pre.*1 ++ [k];
       thrown := Some ex |}.
Proof.
  revert w. induction pre as [|[k0 cb0] pre IH]; intros w; simpl.
  - intros [= ->] Hex. destruct (cb event w1) as [w2 [ex'|]]; simpl in *;
      [by injection Hex as -> | done].
  - destruct (cb0 event w) as [w0 [ex0|]]; [done|].
    intros H Hex. by rewrite (IH _ H Hex).
Qed.

(** One of the two happens. *)
Lemma returnsNormally_or_throws (ls : Listeners World) (w : World) :
  (exists w', returnsNormally ls event w = Some w') \/
  (exists pre k cb post w1 ex,
     ls = pre ++ (k, cb) :: post /\
     returnsNormally pre event w = Some w1 /\
     (cb event w1).2 = Some ex).
Proof.
  revert w. induction ls as [|[k cb] rest IH]; intros w; simpl.
  - left. by exists w.
  - destruct (cb event w) as [w1 [ex|]] eqn:Hcb.
    + right. exists [], k, cb, rest, w, ex. by rewrite Hcb.
    + destruct (IH w1) as [Hquiet|(pre & k' & cb' & post & w2 & ex & -> & Hpre & Hex)];
        [by left|].
      right. exists ((k, cb) :: pre), k', cb', post, w2, ex.
      simpl. by rewrite Hcb.
Qed.

End Emit.

(** C1 (publish), amended: [emit] calls the subscribed callbacks one after
    the other in subscription order, each on the world the previous one
    left.  When none of the calls throws, every callback has been called and
    [emit] returns normally.  When the callbacks before one return normally
    and that one throws, the exception leaves [emit]: the callbacks called
    are those up to and including the one that threw, the world is the one
    that callback left, and the callbacks subscribed after it are not
    called.  One of the two cases always applies, and an exception that
    leaves [emit] is the one of such a callback. *)
Theorem emit_runs_until_first_throw {World : Type}
    (ls : Listeners World) (event : RealtimeEvent) (w : World) :
  let r := emit ls event w in
  (forall w', returnsNormally ls event w = Some w' ->
     r = {| after := w'; invoked := ls.*1; thrown := None |}) /\
  (forall pre k cb post w1 ex,
     ls = pre ++ (k, cb) :: post ->
     returnsNormally pre event w = Some w1 ->
     (cb event w1).2 = Some ex ->
     r = {| after := (cb event w1).1; invoked := pre.*1 ++ [k];
            thrown := Some ex |}) /\
  ((exists w', returnsNormally ls event w = Some w') \/
   (exists pre k cb post w1 ex,
      ls = pre ++ (k, cb) :: post /\
      returnsNormally pre event w = Some w1 /\
      (cb event w1).2 = Some ex)) /\
  match thrown r with
  | None => invoked r = ls.*1
  | Some ex =>
      exists pre k cb post w0,
        ls = pre ++ (k, cb) :: post /\
        invoked r = pre.*1 ++ [k] /\
        cb event w0 = (after r, Some ex)
  end.
Proof.
  cbv zeta. split; [|split; [|split]].
  - apply emit_quiet.
  - intros pre k cb post w1 ex ->. apply emit_throw.
  - apply returnsNormally_or_throws.
  - destruct (returnsNormally_or_throws event ls w)
      as [[w' Hquiet]|(pre & k & cb & post & w1 & ex & -> & Hpre & Hex)].
    + by rewrite (emit_quiet _ _ _ _ Hquiet).
    + rewrite (emit_throw _ _ _ _ post _ _ _ Hpre Hex). simpl.
      exists pre, k, cb, post, w1. split; [done|]. split; [done|].
      by destruct (cb event w1) as [w2 o]; simpl in *; subst o.
Qed.

(** Two callbacks that return normally are both called. *)
Example quiet_listeners_all_invoked :
  emit [(1%nat, Samples.noting 1); (3%nat, Samples.noting 3)]
    Samples.syncEvent []
  = {| after := [1; 3]%nat; invoked := [1; 3]%nat; thrown := None |}.
Proof. reflexivity. Qed.

End EmitterFacts.

(** * Properties of the mock backend *)

Module ServerFacts.
Import Server.

(** ** Sorting *)

Lemma insertBy_perm {A} (compare : A -> A -> Z) (x : A) (l : list A) :
  insertBy compare x l ≡ₚ x :: l.
Proof.
  induction l as [|y l IH]; simpl; [done|].
  destruct (compare x y <=? 0); [done|].
  rewrite IH. apply Permutation_swap.
Qed.

Lemma sortBy_perm {A} (compare : A -> A -> Z) (l : list A) :
  sortBy compare l ≡ₚ l.
Proof.
  induction l as [|x l IH]; simpl; [done|].
  rewrite insertBy_perm. by rewrite IH.
Qed.

Lemma insertBy_descending (x : MoodEntry) (l : list MoodEntry) :
  descending l -> descending (insertBy byTimestampDesc x l).
Proof.
  unfold descending. induction 1 as [|y l Hl IH Hy]; simpl.
  - repeat constructor.
  - unfold byTimestampDesc at 1.
    destruct (timestamp y - timestamp x <=? 0) eqn:Hcmp.
    + apply Z.leb_le in Hcmp. constructor; [by constructor|].
      constructor; [lia|].
      eapply Forall_impl; [exact Hy|]. simpl. intros z Hz. lia.
    + apply Z.leb_gt in Hcmp. constructor; [exact IH|].
      rewrite insertBy_perm. constructor; [lia | exact Hy].
Qed.

Lemma sortBy_descending (l : list MoodEntry) :
  descending (sortBy byTimestampDesc l).
Proof.
  induction l as [|x l IH]; simpl; [constructor|].
  by apply insertBy_descending.
Qed.

(** ** Filtering *)

Lemma filter_if {A} (c : bool) (p : A -> bool) (l : list A) :
  (if c then List.filter p l else l)
  = List.filter (fun x => if c then p x else true) l.
Proof.
  destruct c; [done|]. induction l as [|x l IH]; simpl; congruence.
Qed.

Lemma filter_and {A} (p q : A -> bool) (l : list A) :
  List.filter q (List.filter p l) = List.filter (fun x => p x && q x) l.
Proof.
  induction l as [|x l IH]; simpl; [done|].
  destruct (p x); simpl; [|done]. destruct (q x); congruence.
Qed.

Lemma elem_of_List_filter {A} (p : A -> bool) (l : list A) (x : A) :
  x ∈ List.filter p l <-> x ∈ l /\ p x = true.
Proof. rewrite !list_elem_of_In. apply List.filter_In. Qed.

Lemma includes_true {A} `{EqDecision A} (l : list A) (x : A) :
  includes l x = true <-> x ∈ l.
Proof. unfold includes. apply bool_decide_eq_true. Qed.

Lemma getAll_data (f : option MoodFilter) (now : Z) (db : MockDatabase) :
  page_data (getAll f now db)
  = sortBy byTimestampDesc (List.filter (selectsb f) (moods db)).
Proof.
  unfold getAll. simpl. f_equal.
  rewrite !filter_if, !filter_and. apply List.filter_ext. intros m.
  unfold selectsb. by rewrite !andb_assoc.
Qed.

Lemma selectsb_selects (f : option MoodFilter) (m : MoodEntry) :
  selectsb f m = true <-> selects f m.
Proof.
  unfold selectsb, selects.
  rewrite !andb_true_iff.
  assert (forall o : option Z, forall P : Z -> Prop, forall b : Z -> bool,
            (forall z, b z = true <-> P z) ->
            ((if truthyNumber o then b (default 0 o) else true) = true
             <-> forall z, o = Some z -> z <> 0 -> P z)) as Hnum.
  { intros [z|] P b Hb; simpl.
    - destruct (z =? 0) eqn:Hz; simpl.
      + apply Z.eqb_eq in Hz. split; [|done]. intros _ ? [= <-] ?. done.
      + apply Z.eqb_neq in Hz. rewrite Hb. split.
        * by intros ? ? [= <-] ?.
        * intros H. by apply H.
    - split; [|done]. by intros _ ? ?. }
  assert (forall (A : Type) (o : option (list A)) (P : list A -> Prop)
                 (b : list A -> bool),
            (forall l, b l = true <-> P l) ->
            ((if truthyLength o then b (default [] o) else true) = true
             <-> forall l, o = Some l -> l <> [] -> P l)) as Hlen.
  { intros A [[|x l]|] P b Hb; simpl.
    - split; [|done]. by intros _ ? [= <-] ?.
    - rewrite Hb. split.
      + by intros ? ? [= <-] ?.
      + intros H. by apply H.
    - split; [|done]. by intros _ ? ?. }
  rewrite (Hnum _ (fun s => s <= timestamp m) (fun s => s <=? timestamp m))
    by (intros; apply Z.leb_le).
  rewrite (Hnum _ (fun e => timestamp m <= e) (fun e => timestamp m <=? e))
    by (intros; apply Z.leb_le).
  rewrite (Hlen _ _ (fun cs => category m ∈ cs)
                    (fun cs => includes cs (category m)))
    by (intros; apply includes_true).
  rewrite (Hlen _ _ (fun ls => level m ∈ ls)
                    (fun ls => includes ls (level m)))
    by (intros; apply includes_true).
  tauto.
Qed.

Example getAll_without_filter :
  page_data (getAll None 0 Samples.sampleDatabase)
  = [Samples.calmEntry; Samples.happyEntry] /\
  page_data (getAll (Some Samples.noFilter) 0 Samples.sampleDatabase)
  = [Samples.calmEntry; Samples.happyEntry].
Proof. split; reflexivity. Qed.

Example getAll_happy_and_high :
  page_data (getAll (Some Samples.happyAndHigh) 0 Samples.sampleDatabase)
  = [Samples.happyEntry].
Proof. reflexivity. Qed.

(** C5, as stated, fails: a [categories] field that is present and empty
    constrains nothing.  [getAll({ categories: [] })] returns every stored
    entry, although no entry has its category in the empty set. *)
Lemma empty_category_set_selects_everything :
  categories Samples.emptyCategories = Some [] /\
  page_data (getAll (Some Samples.emptyCategories) 0 Samples.sampleDatabase)
    = [Samples.calmEntry; Samples.happyEntry] /\
  ~ satisfiesEveryPresentField Samples.emptyCategories Samples.calmEntry.
Proof.
  split; [reflexivity|]. split; [reflexivity|].
  intros (_ & _ & Hcat & _). specialize (Hcat [] eq_refl).
  by apply elem_of_nil in Hcat.
Qed.

(** C5 (filter conjunction), amended: [getAll] returns exactly the stored
    entries that satisfy, conjunctively, every filter field that is applied,
    most recent first: [timestamp >= startDate] when [startDate] is present
    and not 0, [timestamp <= endDate] when [endDate] is present and not 0,
    membership of the category when [categories] is present and not empty,
    membership of the level when [levels] is present and not empty.  In
    particular [getAll({categories: ['happy'], levels: [4, 5]})] returns only
    entries whose category is happy and whose level is 4 or 5. *)
Theorem getAll_filters_and_sorts
    (f : option MoodFilter) (now : Z) (db : MockDatabase) :
  let r := getAll f now db in
  let r' := getAll (Some Samples.happyAndHigh) now db in
  page_data r ≡ₚ List.filter (selectsb f) (moods db) /\
  (forall m, m ∈ page_data r <-> m ∈ moods db /\ selects f m) /\
  descending (page_data r) /\
  total r = length (page_data r) /\
  (forall m, m ∈ page_data r' ->
             category m = happy /\ (level m = L4 \/ level m = L5)) /\
  descending (page_data r').
Proof.
  cbv zeta.
  assert (total (getAll f now db) = length (page_data (getAll f now db)))
    as Htotal by reflexivity.
  rewrite Htotal, !getAll_data.
  split; [apply sortBy_perm|]. split; [|split; [apply sortBy_descending|]].
  - intros m. rewrite sortBy_perm, elem_of_List_filter.
    by rewrite selectsb_selects.
  - split; [reflexivity|]. split; [|apply sortBy_descending].
    intros m. rewrite sortBy_perm, elem_of_List_filter, selectsb_selects.
    intros (_ & _ & _ & Hcat & Hlev).
    specialize (Hcat [happy] eq_refl ltac:(discriminate)).
    specialize (Hlev [L4; L5] eq_refl ltac:(discriminate)).
    apply list_elem_of_singleton in Hcat.
    apply elem_of_cons in Hlev as [Hlev|Hlev]; [by auto|].
    apply list_elem_of_singleton in Hlev. by auto.
Qed.

(** ** Today's entries *)

Lemma div_eq_iff (a d q : Z) :
  0 < d -> (a / d = q <-> q * d <= a < q * d + d).
Proof.
  intros Hd. split.
  - intros <-. pose proof (Z.mul_div_le a d Hd).
    pose proof (Z.mul_succ_div_gt a d Hd). lia.
  - intros H. symmetry. apply (Z.div_unique a d q (a - q * d)); lia.
Qed.

Lemma getToday_data (startOfDay tReturn : Z) (db : MockDatabase) (m : MoodEntry) :
  m ∈ data (getToday startOfDay tReturn db) <->
  m ∈ moods db /\ startOfDay <= timestamp m <= startOfDay + msPerDay - 1.
Proof.
  unfold getToday. simpl. rewrite sortBy_perm, elem_of_List_filter.
  rewrite andb_true_iff, !Z.leb_le. unfold msPerDay. tauto.
Qed.

(** In a zone whose offset never changes, [getToday] returns exactly the
    entries of the local calendar day, most recent first. *)
Lemma getToday_fixed_offset
    (off now startOfDay tReturn : Z) (db : MockDatabase) :
  isStartOfLocalDay (fixedZone off) now startOfDay ->
  (forall m, m ∈ data (getToday startOfDay tReturn db) <->
             m ∈ moods db /\
             localDate (fixedZone off) (timestamp m)
             = localDate (fixedZone off) now) /\
  descending (data (getToday startOfDay tReturn db)).
Proof.
  unfold isStartOfLocalDay, localDate, localTimeOfDay, localTime, fixedZone.
  intros [Hday Hmid]. split; [|apply sortBy_descending].
  intros m. rewrite getToday_data.
  assert (0 < msPerDay) as Hpos by (unfold msPerDay; lia).
  pose proof (Z.div_mod (startOfDay + off) msPerDay ltac:(lia)) as Hdm.
  rewrite Hmid, Hday in Hdm.
  rewrite (div_eq_iff (timestamp m + off) msPerDay _ Hpos).
  split; (intros [? ?]; split; [done | lia]).
Qed.

(** In UTC, 2026-11-01 runs from 1793491200000 to 1793577599999. *)
Example getToday_utc_day :
  let r := getToday 1793491200000 Samples.noonNov1
             {| moods := [Samples.lateEntry;
                          Samples.entryWith "a" calm L1 1793577599999;
                          Samples.entryWith "b" calm L1 1793577600000;
                          Samples.entryWith "c" calm L1 1793491200000] |} in
  isStartOfLocalDay (fixedZone 0) Samples.noonNov1 1793491200000 /\
  data r = [Samples.entryWith "a" calm L1 1793577599999;
            Samples.entryWith "c" calm L1 1793491200000].
Proof. split; [split|]; reflexivity. Qed.

(** C6: on a day on which the clocks are set back, [getToday] leaves out
    the last hour of the local calendar day.  With US Eastern time on
    2026-11-01 (a day of 25 hours), [startOfDay] is that day's local midnight
    and [endOfDay = startOfDay + 24h - 1] reads 22:59:59.999 on the wall
    clock; an entry made at 23:59:59.999 local time of the same calendar day
    is not returned. *)
Theorem getToday_drops_last_hour_after_clock_change :
  isStartOfLocalDay Samples.easternAutumn2026 Samples.noonNov1
    Samples.midnightNov1 /\
  localDate Samples.easternAutumn2026 (timestamp Samples.lateEntry)
    = localDate Samples.easternAutumn2026 Samples.noonNov1 /\
  localTimeOfDay Samples.easternAutumn2026 (timestamp Samples.lateEntry)
    = msPerDay - 1 /\
  data (getToday Samples.midnightNov1 Samples.noonNov1
          {| moods := [Samples.lateEntry] |}) = [].
Proof. repeat split; reflexivity. Qed.

(** On a day on which the clocks are set forward (US Eastern time on
    2026-03-08, a day of 23 hours) the window reaches into the next calendar
    day: an entry made at its 00:00:00.000 is returned. *)
Lemma getToday_reaches_into_next_day_after_clock_change :
  isStartOfLocalDay Samples.easternSpring2026 Samples.noonMar8
    Samples.midnightMar8 /\
  localDate Samples.easternSpring2026 (timestamp Samples.nextDayEntry)
    = localDate Samples.easternSpring2026 Samples.noonMar8 + 1 /\
  localTimeOfDay Samples.easternSpring2026 (timestamp Samples.nextDayEntry)
    = 0 /\
  data (getToday Samples.midnightMar8 Samples.noonMar8
          {| moods := [Samples.nextDayEntry] |}) = [Samples.nextDayEntry].
Proof. repeat split; reflexivity. Qed.

(** ** Statistics *)

Lemma List_filter_none {A} (p : A -> bool) (l : list A) :
  (forall x, x ∈ l -> p x = false) -> List.filter p l = [].
Proof.
  induction l as [|x l IH]; intros H; simpl; [done|].
  rewrite (H x) by left. apply IH. intros y Hy. apply H. by right.
Qed.

(** C7 (statistics of an empty range): when no stored entry has its
    timestamp between [startDate] and [endDate], [getStats] returns the
    average 0, the count 0 and an empty breakdown by category.  The
    operation has no [throw]; the quotient is taken only when the count is
    not 0. *)
Theorem getStats_empty_range
    (startDate endDate now : Z) (db : MockDatabase) :
  (forall m, m ∈ moods db ->
             ~ (startDate <= timestamp m <= endDate)) ->
  getStats startDate endDate now db
  = {| data := {| average := 0%Q; count := 0; byCategory := [] |};
       success := true; resp_timestamp := now |}.
Proof.
  intros Hnone. unfold getStats.
  rewrite List_filter_none; [done|].
  intros m Hm. specialize (Hnone m Hm).
  apply andb_false_iff. rewrite !Z.leb_gt. lia.
Qed.

Lemma getStats_empty_range_witness :
  (forall m, m ∈ moods Samples.sampleDatabase ->
             ~ (5000 <= timestamp m <= 6000)) /\
  getStats 5000 6000 7000 Samples.sampleDatabase
  = {| data := {| average := 0%Q; count := 0; byCategory := [] |};
       success := true; resp_timestamp := 7000 |}.
Proof.
  assert (forall m, m ∈ moods Samples.sampleDatabase ->
                    ~ (5000 <= timestamp m <= 6000)) as Hnone.
  { intros m Hm. change (m ∈ [Samples.happyEntry; Samples.calmEntry]) in Hm.
    apply elem_of_cons in Hm as [->|Hm];
      [|apply list_elem_of_singleton in Hm; subst m]; simpl; lia. }
  split; [exact Hnone|].
  exact (getStats_empty_range 5000 6000 7000 Samples.sampleDatabase Hnone).
Defined.

(** On a range that matches entries the same operation counts them. *)
Example getStats_sample :
  data (getStats 0 4000 7000 Samples.sampleDatabase)
  = {| average := (7 # 1) / (2 # 1); count := 2;
       byCategory := [(happy, 1); (calm, 1)] |}.
Proof. reflexivity. Qed.

(** ** Not found *)

Section NotFound.
Context {World : Type}.
Implicit Types (st : State World) (i : string).

Lemma findIndex_id_None i st :
  findIndex (fun m => String.eqb (id m) i) (moods (database st)) = None
  <-> absent i st.
Proof.
  rewrite LedgerFacts.findIndex_None. unfold absent.
  split; intros H m Hm; specialize (H m Hm); by apply LedgerFacts.hasId_false.
Qed.

Lemma find_id_None i st :
  List.find (fun m => String.eqb (id m) i) (moods (database st)) = None
  <-> absent i st.
Proof.
  unfold absent. split.
  - intros H m Hm. apply LedgerFacts.hasId_false.
    apply (List.find_none _ _ H). by apply list_elem_of_In.
  - intros H. destruct (List.find _ _) as [m|] eqn:Hfind; [|done].
    apply List.find_some in Hfind as [Hin Hid].
    apply list_elem_of_In in Hin. apply LedgerFacts.hasId_true in Hid.
    by destruct (H m Hin).
Qed.

Lemma emitThen_not_notFound {A} (event : RealtimeEvent) st (a : A) :
  (emitThen event st (fun st2 => (Returned a, st2))).1 <> Threw notFound.
Proof. unfold emitThen. by destruct (thrown _). Qed.

(** C8 (not found): [getById], [update] and [delete] throw the backend's
    not-found error exactly when no stored entry has the id, and an [update]
    or [delete] that throws it leaves the backend as it was: the database,
    the persisted document, the listeners and their world. *)
Theorem notFound_iff_absent_and_nothing_changes
    (i : string) (updates : PartialMoodEntry) (now tEvent tReturn : Z)
    (st : State World) :
  ((getById i now st).1 = Threw notFound <-> absent i st) /\
  ((update i updates tEvent tReturn st).1 = Threw notFound <-> absent i st) /\
  ((delete i tEvent tReturn st).1 = Threw notFound <-> absent i st) /\
  ((update i updates tEvent tReturn st).1 = Threw notFound ->
   (update i updates tEvent tReturn st).2 = st) /\
  ((delete i tEvent tReturn st).1 = Threw notFound ->
   (delete i tEvent tReturn st).2 = st).
Proof.
  rewrite <- (find_id_None i st) at 1. rewrite <- !(findIndex_id_None i st).
  unfold getById, update, delete.
  destruct (List.find _ _) as [m|]; destruct (findIndex _ _) as [k|]; simpl;
    repeat split; try done; intros H; exfalso;
    by apply emitThen_not_notFound in H.
Qed.

End NotFound.

(** The operations on the sample backend: an unknown id, and a known one
    whose event meets the throwing listener after the database has changed. *)
Example delete_unknown_id :
  delete "no-such-id" 10 11 Samples.sampleServer
  = (Threw notFound, Samples.sampleServer).
Proof. reflexivity. Qed.

Example delete_known_id_with_throwing_listener :
  (delete Samples.serverId1 10 11 Samples.sampleServer).1
    = Threw (CallbackError "listener failed") /\
  moods (database (delete Samples.serverId1 10 11 Samples.sampleServer).2)
    = [Samples.calmEntry].
Proof. split; reflexivity. Qed.

(** ** Temporary and permanent ids *)

Lemma temporary_prefix (u : string) :
  isTemporaryId (String.append Ledger.tempPrefix u) = true.
Proof. unfold isTemporaryId. simpl. by destruct u. Qed.

Lemma uuid_starts_with_hex_digit (u : string) :
  isUuidV4 u = true ->
  exists a rest, u = String a rest /\ isHexDigit a = true.
Proof.
  destruct u as [|a rest]; [discriminate|].
  unfold isUuidV4. simpl. intros H. apply andb_true_iff in H as [H _].
  by exists a, rest.
Qed.

Lemma uuid_not_temporary (u : string) :
  isUuidV4 u = true -> isTemporaryId u = false.
Proof.
  intros H. apply uuid_starts_with_hex_digit in H as (a & rest & -> & Ha).
  unfold isTemporaryId, Ledger.tempPrefix.
  change ((if ascii_dec "t" a then String.prefix "emp-" rest else false)
          = false).
  destruct (ascii_dec "t" a) as [<-|_]; [|done].
  vm_compute in Ha. discriminate Ha.
Qed.

(** C9 (reserved prefix): the id [addEntry] gives the entry it builds
    starts with [temp-], whatever [uuid()] returned, and an entry [addEntry]
    returns is that entry; the id [create] assigns is the value of [uuid()]
    itself, and a version 4 UUID, made of hexadecimal digits and dashes, does
    not start with [temp-].  [create] puts the entry with that id at the head
    of the database and, when it returns, returns that entry. *)
Theorem temporary_and_permanent_ids_differ {World : Type}
    (u : string) (now : Z) (c : MoodCategory) (l : MoodLevel)
    (n : option string) (s : Ledger.MoodState)
    (entry : MoodEntry) (u' : string) (tEvent tReturn : Z)
    (st : State World) :
  isUuidV4 u' = true ->
  let pending := Ledger.newEntry u now c l n in
  let created := create entry u' tEvent tReturn st in
  isTemporaryId (id pending) = true /\
  (forall loaded e,
     (Ledger.addEntryWith loaded u now c l n s).1 = Immer.Ok e ->
     e = pending) /\
  (exists m, moods (database created.2) = m :: moods (database st) /\
             id m = u' /\ isTemporaryId (id m) = false) /\
  (forall resp, created.1 = Returned resp ->
                id (data resp) = u' /\ isTemporaryId (id (data resp)) = false) /\
  id pending <> u'.
Proof.
  intros Hu'. cbv zeta. pose proof (uuid_not_temporary u' Hu') as Hperm.
  split; [apply temporary_prefix|]. split; [|split; [|split]].
  - intros loaded e. destruct loaded; simpl; [by intros [= <-] | done].
  - unfold create, emitThen. simpl. destruct (thrown _); simpl; eauto.
  - intros resp. unfold create, emitThen. simpl.
    destruct (thrown _); simpl; [done|]. by intros [= <-].
  - simpl. intros Heq. rewrite <- Heq, temporary_prefix in Hperm. done.
Qed.

Lemma temporary_and_permanent_ids_differ_witness :
  isUuidV4 Samples.serverId1 = true /\
  let pending :=
    Ledger.newEntry "1b4e28ba-2fa1-41d2-883f-0016d3cca427" 1000 happy L4
      None in
  let created :=
    create Samples.pendingEntry Samples.serverId1 10 11 Samples.sampleServer in
  isTemporaryId (id pending) = true /\
  (forall loaded e,
     (Ledger.addEntryWith loaded "1b4e28ba-2fa1-41d2-883f-0016d3cca427" 1000
        happy L4 None Ledger.initial).1 = Immer.Ok e ->
     e = pending) /\
  (exists m, moods (database created.2)
             = m :: moods (database Samples.sampleServer) /\
             id m = Samples.serverId1 /\ isTemporaryId (id m) = false) /\
  (forall resp, created.1 = Returned resp ->
                id (data resp) = Samples.serverId1 /\
                isTemporaryId (id (data resp)) = false) /\
  id pending <> Samples.serverId1.
Proof.
  split; [reflexivity|].
  exact (temporary_and_permanent_ids_differ
           "1b4e28ba-2fa1-41d2-883f-0016d3cca427" 1000 happy L4 None
           Ledger.initial Samples.pendingEntry Samples.serverId1 10 11
           Samples.sampleServer eq_refl).
Defined.

End ServerFacts.

(** * Further properties of the store *)

Module StoreFacts.
Import Immer Ledger Store.

(** X1 (the actions that read the pending map): [addEntry], [deleteEntry],
    [confirmEntry] and [rejectEntry] each end in the exception immer raises
    for a [Map] without its plugin, and a sequence made of such actions
    leaves the whole store as it was. *)
Theorem map_actions_throw_and_change_nothing
    (u : string) (now : Z) (c : MoodCategory) (l : MoodLevel)
    (n : option string) (i t : string) (confirmed : MoodEntry) (msg : string)
    (acts : list Action) (s : MoodState) :
  Forall (fun a => readsPendingEntries a = true) acts ->
  (addEntry u now c l n s).1 = Error MapSetNotLoaded /\
  (deleteEntry i s).1 = Error MapSetNotLoaded /\
  (confirmEntry t confirmed s).1 = Error MapSetNotLoaded /\
  (rejectEntry t msg s).1 = Error MapSetNotLoaded /\
  run acts s = s.
Proof.
  intros Hacts. repeat (split; [reflexivity|]).
  unfold run. induction Hacts as [|a acts Ha _ IH]; [done|].
  simpl. by destruct a.
Qed.

Lemma map_actions_throw_and_change_nothing_witness :
  let acts := [ AddEntry "ab" 5 calm L3 None;
                ConfirmEntry Samples.tempId1 Samples.confirmedEntry;
                RejectEntry Samples.tempId1 "Failed to create mood entry";
                DeleteEntry Samples.serverId1 ] in
  let s := Samples.twoEntries in
  Forall (fun a => readsPendingEntries a = true) acts /\
  (addEntry "ab" 5 calm L3 None s).1 = Error MapSetNotLoaded /\
  (deleteEntry Samples.serverId1 s).1 = Error MapSetNotLoaded /\
  (confirmEntry Samples.tempId1 Samples.confirmedEntry s).1
    = Error MapSetNotLoaded /\
  (rejectEntry Samples.tempId1 "Failed to create mood entry" s).1
    = Error MapSetNotLoaded /\
  run acts s = s.
Proof.
  cbv zeta.
  assert (Forall (fun a => readsPendingEntries a = true)
            [ AddEntry "ab" 5 calm L3 None;
              ConfirmEntry Samples.tempId1 Samples.confirmedEntry;
              RejectEntry Samples.tempId1 "Failed to create mood entry";
              DeleteEntry Samples.serverId1 ]) as Hacts
    by (repeat constructor).
  split; [exact Hacts|].
  exact (map_actions_throw_and_change_nothing "ab" 5 calm L3 None
           Samples.serverId1 Samples.tempId1 Samples.confirmedEntry
           "Failed to create mood entry" _ Samples.twoEntries Hacts).
Defined.

Lemma updateEntry_entries (i : string) (u : EntryUpdates) (s : MoodState) :
  entries (updateEntry i u s) = patchFirst i u (entries s).
Proof. reflexivity. Qed.

Lemma patchFirst_cons (i : string) (u : EntryUpdates) (x : MoodEntry)
    (es : list MoodEntry) :
  patchFirst i u (x :: es) =
  if decide (id x = i) then assign x u :: es else x :: patchFirst i u es.
Proof.
  unfold patchFirst. simpl. destruct (decide (id x = i)) as [Hx|Hx].
  - apply LedgerFacts.hasId_true in Hx. by rewrite Hx.
  - apply LedgerFacts.hasId_false in Hx. rewrite Hx.
    by destruct (findIndex _ es).
Qed.

Lemma assign_twice (e : MoodEntry) (u : EntryUpdates) :
  assign (assign e u) u = assign e u.
Proof.
  destruct u as [[lv|] [ct|] [nt|]]; reflexivity.
Qed.

(** X3 ([updateEntry] of an unknown id): when no entry carries the id,
    [updateEntry] leaves the whole store as it was. *)
Theorem updateEntry_unknown_id
    (i : string) (u : EntryUpdates) (s : MoodState) :
  (forall e, e ∈ entries s -> id e ≠ i) ->
  updateEntry i u s = s.
Proof.
  intros Habsent. destruct s as [es pe il isy er ls]. unfold updateEntry.
  simpl in *.
  assert (findIndex (fun e => String.eqb (id e) i) es = None) as ->; [|done].
  apply LedgerFacts.findIndex_None. intros e He.
  apply LedgerFacts.hasId_false. by apply Habsent.
Qed.

Lemma updateEntry_unknown_id_witness :
  (forall e, e ∈ entries Samples.twoEntries -> id e ≠ "nobody") /\
  updateEntry "nobody"
    {| upd_level := Some L1; upd_category := None; upd_note := None |}
    Samples.twoEntries
  = Samples.twoEntries.
Proof.
  assert (forall e, e ∈ entries Samples.twoEntries ->
                    id e ≠ "nobody") as Habsent.
  { intros e He.
    change (e ∈ [Samples.confirmedEntry; Samples.pendingEntry]) in He.
    apply elem_of_cons in He as [->|He];
      [|apply list_elem_of_singleton in He; subst e];
      vm_compute; discriminate. }
  split; [exact Habsent|].
  exact (updateEntry_unknown_id "nobody" _ Samples.twoEntries Habsent).
Defined.

(** X4 (what [updateEntry] keeps): the ids, timestamps and user ids of the
    entries, in their order, hence the number of entries; every entry with
    another id; and the pending map. *)
Theorem updateEntry_keeps_identity
    (i : string) (u : EntryUpdates) (s : MoodState) :
  let s' := updateEntry i u s in
  id <$> entries s' = id <$> entries s /\
  timestamp <$> entries s' = timestamp <$> entries s /\
  userId <$> entries s' = userId <$> entries s /\
  length (entries s') = length (entries s) /\
  filter (fun e => id e ≠ i) (entries s')
    = filter (fun e => id e ≠ i) (entries s) /\
  pendingEntries s' = pendingEntries s.
Proof.
  cbv zeta. rewrite !updateEntry_entries.
  assert (forall (B : Type) (f : MoodEntry -> B),
            (forall e, f (assign e u) = f e) ->
            f <$> patchFirst i u (entries s) = f <$> entries s) as Hmap.
  { intros B f Hf. induction (entries s) as [|x es IH]; [done|].
    rewrite patchFirst_cons. destruct (decide (id x = i)).
    - by rewrite !fmap_cons, Hf.
    - by rewrite !fmap_cons, IH. }
  repeat split; try (apply Hmap; done).
  - rewrite <- (length_fmap id), Hmap by done. apply length_fmap.
  - clear Hmap. induction (entries s) as [|x es IH]; [done|].
    rewrite patchFirst_cons. destruct (decide (id x = i)) as [Hx|Hx].
    + rewrite (filter_cons_False _ (assign x u)) by (simpl; tauto).
      by rewrite (filter_cons_False _ x) by tauto.
    + rewrite !filter_cons_True by done. by rewrite IH.
Qed.

(** X5 ([updateEntry] twice): applying the same update to the same id a
    second time changes nothing. *)
Theorem updateEntry_idempotent
    (i : string) (u : EntryUpdates) (s : MoodState) :
  updateEntry i u (updateEntry i u s) = updateEntry i u s.
Proof.
  unfold updateEntry at 1 3. simpl. fold (patchFirst i u (entries s)).
  f_equal. fold (patchFirst i u (patchFirst i u (entries s))).
  induction (entries s) as [|x es IH]; [done|].
  rewrite patchFirst_cons. destruct (decide (id x = i)) as [Hx|Hx].
  - rewrite patchFirst_cons, decide_True by done. by rewrite assign_twice.
  - rewrite patchFirst_cons, decide_False by done. by rewrite IH.
Qed.

Lemma act_pending_and_error (a : Action) (s : MoodState) :
  pendingEntries (act a s) = pendingEntries s /\
  (error (act a s) = error s \/ error (act a s) = None).
Proof. destruct a; simpl; auto. Qed.

Lemma run_pending_and_error (acts : list Action) (s : MoodState) :
  pendingEntries (run acts s) = pendingEntries s /\
  (error (run acts s) = error s \/ error (run acts s) = None).
Proof.
  unfold run. revert s. induction acts as [|a acts IH]; intros s; [auto|].
  simpl. destruct (IH (act a s)) as [Hp He].
  destruct (act_pending_and_error a s) as [Hp' He'].
  split; [congruence|].
  destruct He as [He|He]; [|by right].
  destruct He' as [He'|He']; [left | right]; congruence.
Qed.

(** X7 (nothing is tracked, nothing is reported): however the store is
    driven, the pending map stays as it was and the [error] field is either
    what it was or cleared; from the initial store, no entry is ever tracked
    as pending and [error] is never set. *)
Theorem run_never_tracks_or_reports (acts : list Action) (s : MoodState) :
  pendingEntries (run acts s) = pendingEntries s /\
  (error (run acts s) = error s \/ error (run acts s) = None) /\
  pendingEntries (run acts initial) = ∅ /\
  error (run acts initial) = None.
Proof.
  destruct (run_pending_and_error acts s) as [Hp He].
  destruct (run_pending_and_error acts initial) as [Hp0 He0].
  split; [done|]. split; [done|]. split; [done|]. by destruct He0.
Qed.

Lemma sampleRun_setsDistinctLists : setsDistinctLists sampleRun.
Proof.
  unfold setsDistinctLists, sampleRun.
  repeat (apply Forall_cons; split;
          [first [exact I | exact LedgerFacts.calm_then_happy_distinctIds]|]).
  apply Forall_nil_2.
Qed.

(** X8 (distinct ids along a run): when no two entries of the store share
    an id and every list handed to [setEntries] is without repeated ids, then
    after any sequence of actions no two entries share an id: every id is
    carried by one entry at most. *)
Theorem run_keeps_ids_distinct (acts : list Action) (s : MoodState) :
  distinctIds (entries s) ->
  setsDistinctLists acts ->
  distinctIds (entries (run acts s)) /\
  forall i, (copies i (entries (run acts s)) <= 1)%nat.
Proof.
  intros Hs Hacts.
  pose proof (LedgerFacts.run_distinctIds acts s Hs Hacts) as Hrun.
  split; [done|]. by apply LedgerFacts.distinctIds_copies.
Qed.

Lemma run_keeps_ids_distinct_witness :
  distinctIds (entries initial) /\
  setsDistinctLists sampleRun /\
  entries (run sampleRun initial)
    = [Samples.pendingEntry; Samples.calmEntry; Samples.happyEntry] /\
  distinctIds (entries (run sampleRun initial)) /\
  forall i, (copies i (entries (run sampleRun initial)) <= 1)%nat.
Proof.
  split; [exact LedgerFacts.initial_distinctIds|].
  split; [exact sampleRun_setsDistinctLists|].
  split; [reflexivity|].
  exact (run_keeps_ids_distinct sampleRun initial
           LedgerFacts.initial_distinctIds sampleRun_setsDistinctLists).
Defined.

(** X9 (what is persisted): the persisted document holds at most 500
    entries, and they are the first entries of the ledger in their order: all
    of them when the ledger holds no more than 500.  An entry that
    [addRealtimeEntry] has just put at the head is the first of them, and 499
    of the earlier entries follow. *)
Theorem partialize_keeps_first_500 (s : MoodState) (e : MoodEntry) :
  (length (persistedEntries (partialize s)) <= 500)%nat /\
  persistedEntries (partialize s) `prefix_of` entries s /\
  ((length (entries s) <= 500)%nat ->
   persistedEntries (partialize s) = entries s) /\
  (copies (id e) (entries s) = 0%nat ->
   persistedEntries (partialize (addRealtimeEntry e s))
     = e :: take 499 (entries s)) /\
  persistedLastSyncAt (partialize s) = lastSyncAt s.
Proof.
  unfold partialize. cbn [persistedEntries persistedLastSyncAt].
  split; [|split; [|split; [|split]]].
  - rewrite length_take. lia.
  - exists (drop 500 (entries s)). by rewrite take_drop.
  - apply take_ge.
  - intros H0. rewrite LedgerFacts.addRealtimeEntry_entries.
    by rewrite decide_True.
  - done.
Qed.

End StoreFacts.

(** * Further properties of the mock backend *)

Module BackendFacts.
Import Server Backend.

(** ** Subscriptions *)

Section Subscriptions.
Context {World : Type}.
Implicit Types (ls : Listeners World) (cb : EventCallback World).

Lemma subscribe_keys ls k cb :
  (subscribe k cb ls).*1 = if bool_decide (k ∈ ls.*1) then ls.*1 else ls.*1 ++ [k].
Proof.
  unfold subscribe. destruct (bool_decide _); [done|].
  by rewrite fmap_app.
Qed.

Lemma unsubscribe_keys ls k :
  (unsubscribe k ls).*1 = filter (fun k' => k' ≠ k) ls.*1.
Proof.
  unfold unsubscribe. induction ls as [|[k' cb] ls IH]; [done|].
  rewrite (fmap_cons fst). change ((k', cb).1) with k'.
  destruct (decide (k' = k)) as [->|Hk].
  - rewrite (filter_cons_False _ (k, cb)) by (simpl; tauto).
    rewrite (filter_cons_False _ k) by tauto. exact IH.
  - rewrite (filter_cons_True _ (k', cb)) by done.
    rewrite (filter_cons_True _ k') by done.
    rewrite (fmap_cons fst). by f_equal.
Qed.

Lemma invoked_sublist ls (event : RealtimeEvent) (w : World) :
  invoked (emit ls event w) `sublist_of` ls.*1.
Proof.
  revert w. induction ls as [|[k cb] ls IH]; intros w; simpl; [done|].
  destruct (cb event w) as [w' [ex|]]; simpl.
  - apply sublist_skip, sublist_nil_l.
  - apply sublist_skip, IH.
Qed.

(** X10 (a callback is called at most once): subscribing keeps the
    subscribed callbacks distinct, subscribing one that is subscribed
    already changes nothing, and one [emit] never calls a callback twice. *)
Theorem subscribe_keeps_callbacks_distinct
    ls k cb (event : RealtimeEvent) (w : World) :
  NoDup ls.*1 ->
  NoDup (subscribe k cb ls).*1 /\
  (k ∈ ls.*1 -> subscribe k cb ls = ls) /\
  k ∈ (subscribe k cb ls).*1 /\
  NoDup (invoked (emit (subscribe k cb ls) event w)).
Proof.
  intros Hls.
  assert (NoDup (subscribe k cb ls).*1) as Hsub.
  { rewrite subscribe_keys. destruct (bool_decide_reflect (k ∈ ls.*1)); [done|].
    apply NoDup_app. split; [done|]. split; [|apply NoDup_singleton].
    intros x Hx Hxk. apply list_elem_of_singleton in Hxk. by subst x. }
  split; [exact Hsub|]. split; [|split].
  - intros Hk. unfold subscribe. by rewrite bool_decide_eq_true_2.
  - rewrite subscribe_keys. destruct (bool_decide_reflect (k ∈ ls.*1)); [done|].
    apply elem_of_app. right. left.
  - eapply sublist_NoDup; [exact Hsub | apply invoked_sublist].
Qed.

(** X11 (unsubscribing): after the function returned by [subscribe] has
    run, no [emit] calls that callback; the other callbacks stay subscribed
    in their order. *)
Theorem unsubscribe_silences_callback
    ls k (event : RealtimeEvent) (w : World) :
  (k ∉ (unsubscribe k ls).*1) /\
  (k ∉ invoked (emit (unsubscribe k ls) event w)) /\
  (unsubscribe k ls).*1 = filter (fun k' => k' ≠ k) ls.*1.
Proof.
  assert (k ∉ (unsubscribe k ls).*1) as Hk.
  { rewrite unsubscribe_keys. intros H. apply list_elem_of_filter in H. tauto. }
  split; [exact Hk|]. split; [|apply unsubscribe_keys].
  intros H. apply Hk. eapply elem_of_sublist; [exact H|].
  apply invoked_sublist.
Qed.

(** X12 (subscribe, then unsubscribe): for a callback that was not
    subscribed before, subscribing it and calling the function returned
    leaves the listeners as they were. *)
Theorem subscribe_then_unsubscribe ls k cb :
  k ∉ ls.*1 -> unsubscribe k (subscribe k cb ls) = ls.
Proof.
  intros Hk. unfold subscribe, unsubscribe.
  rewrite bool_decide_eq_false_2 by done.
  unfold Listeners in *.
  rewrite filter_app, filter_cons_False, filter_nil by (simpl; tauto).
  rewrite app_nil_r. induction ls as [|[k' cb'] ls IH]; [done|].
  rewrite fmap_cons, not_elem_of_cons in Hk. destruct Hk as [Hne Hk].
  rewrite filter_cons_True by (simpl; intros Heq; by apply Hne). by rewrite IH.
Qed.

End Subscriptions.

Lemma subscribe_keeps_callbacks_distinct_witness :
  NoDup (Samples.threeListeners.*1) /\
  (NoDup (subscribe 2 (Samples.noting 2) Samples.threeListeners).*1 /\
   (2%nat ∈ Samples.threeListeners.*1 ->
    subscribe 2 (Samples.noting 2) Samples.threeListeners
    = Samples.threeListeners) /\
   2%nat ∈ (subscribe 2 (Samples.noting 2) Samples.threeListeners).*1 /\
   NoDup (invoked (emit (subscribe 2 (Samples.noting 2) Samples.threeListeners)
                     Samples.syncEvent []))).
Proof.
  assert (NoDup (Samples.threeListeners.*1)) as Hls.
  { change (NoDup [1; 2; 3]%nat). apply (bool_decide_unpack _). reflexivity. }
  split; [exact Hls|].
  exact (subscribe_keeps_callbacks_distinct Samples.threeListeners 2
           (Samples.noting 2) Samples.syncEvent [] Hls).
Defined.

Lemma subscribe_then_unsubscribe_witness :
  (4%nat ∉ Samples.threeListeners.*1) /\
  unsubscribe 4 (subscribe 4 (Samples.noting 4) Samples.threeListeners)
  = Samples.threeListeners.
Proof.
  assert (4%nat ∉ Samples.threeListeners.*1) as Hk.
  { change (4%nat ∉ [1; 2; 3]%nat). apply (bool_decide_unpack _). reflexivity. }
  split; [exact Hk|].
  exact (subscribe_then_unsubscribe Samples.threeListeners 4
           (Samples.noting 4) Hk).
Defined.

(** ** Mutations *)

Section Mutations.
Context {World : Type}.
Implicit Types (st : State World) (i u : string).

Lemma emitThen_state {A} (event : RealtimeEvent) st (a : A) :
  database (emitThen event st (fun st2 => (Returned a, st2))).2 = database st /\
  storage (emitThen event st (fun st2 => (Returned a, st2))).2 = storage st /\
  eventListeners (emitThen event st (fun st2 => (Returned a, st2))).2
    = eventListeners st.
Proof. unfold emitThen. by destruct (thrown _). Qed.

Lemma emitThen_returned {A} (event : RealtimeEvent) st (a b : A) :
  (emitThen event st (fun st2 => (Returned a, st2))).1 = Returned b -> a = b.
Proof. unfold emitThen. destruct (thrown _); [done|]. by intros [= ->]. Qed.

Lemma create_database (entry : MoodEntry) u (tEvent tReturn : Z) st :
  database (create entry u tEvent tReturn st).2
  = {| moods := stored entry u :: moods (database st) |}.
Proof.
  unfold create.
  match goal with
  | |- context [emitThen ?ev ?st0 (fun st2 => (Returned ?a, st2))] =>
      rewrite (proj1 (emitThen_state ev st0 a))
  end.
  reflexivity.
Qed.

(** X13 (persisted with every change): after [create], [update],
    [delete], [reset] and [seed] the stored document is the database as it
    then is, whether or not a subscribed callback threw, so [loadDatabase]
    gives it back; the set of listeners is never touched. *)
Theorem mutations_persist_the_database
    (entry : MoodEntry) u i (updates : PartialMoodEntry)
    (es : list MoodEntry) (tEvent tReturn : Z) st :
  let persisted st' :=
    storage st' = Some (database st') /\ loadDatabase st' = database st' /\
    eventListeners st' = eventListeners st in
  persisted (create entry u tEvent tReturn st).2 /\
  ((update i updates tEvent tReturn st).1 <> Threw notFound ->
   persisted (update i updates tEvent tReturn st).2) /\
  ((delete i tEvent tReturn st).1 <> Threw notFound ->
   persisted (delete i tEvent tReturn st).2) /\
  persisted (reset st) /\
  persisted (seed es st).
Proof.
  cbv zeta. unfold loadDatabase.
  split; [|split; [|split; [|split]]].
  - unfold create.
    match goal with |- context [emitThen ?ev ?st0 (fun st2 => (Returned ?a, st2))] =>
      destruct (emitThen_state ev st0 a) as (Hd & Hs & Hl) end.
    rewrite Hd, Hs, Hl. done.
  - unfold update. destruct (findIndex _ _) as [k|]; [|done]. intros _.
    match goal with |- context [emitThen ?ev ?st0 (fun st2 => (Returned ?a, st2))] =>
      destruct (emitThen_state ev st0 a) as (Hd & Hs & Hl) end.
    rewrite Hd, Hs, Hl. done.
  - unfold delete. destruct (findIndex _ _) as [k|]; [|done]. intros _.
    match goal with |- context [emitThen ?ev ?st0 (fun st2 => (Returned ?a, st2))] =>
      destruct (emitThen_state ev st0 a) as (Hd & Hs & Hl) end.
    rewrite Hd, Hs, Hl. done.
  - done.
  - done.
Qed.

(** X14 (create, then get): after [create] has stored an entry under the
    id [uuid()] gave, [getById] with that id returns that entry, also when
    a callback threw during the create or an older entry carries the same
    id. *)
Theorem create_then_getById
    (entry : MoodEntry) u (tEvent tReturn now : Z) st :
  let st' := (create entry u tEvent tReturn st).2 in
  (getById u now st').1
  = Returned {| data := stored entry u; success := true;
                resp_timestamp := now |} /\
  (forall resp, (create entry u tEvent tReturn st).1 = Returned resp ->
                data resp = stored entry u).
Proof.
  cbv zeta. split.
  - unfold getById. rewrite create_database. simpl.
    by rewrite String.eqb_refl.
  - intros resp H. unfold create in H. fold (stored entry u) in H.
    apply emitThen_returned in H. by subst resp.
Qed.

(** X15 (create, then delete): deleting the id that [create] has just
    assigned takes the new entry out again: the database holds the entries
    it held before the create, in their order, and the stored document
    agrees with it. *)
Theorem create_then_delete
    (entry : MoodEntry) u (tEvent tReturn tEvent' tReturn' : Z) st :
  let st1 := (create entry u tEvent tReturn st).2 in
  let st2 := (delete u tEvent' tReturn' st1).2 in
  database st2 = {| moods := moods (database st) |} /\
  storage st2 = Some (database st2) /\
  (delete u tEvent' tReturn' st1).1 <> Threw notFound.
Proof.
  cbv zeta. pose proof (create_database entry u tEvent tReturn st) as Hdb.
  unfold delete. rewrite Hdb. cbn [moods findIndex stored id].
  rewrite String.eqb_refl.
  match goal with |- context [emitThen ?ev ?st0 (fun st2 => (Returned ?a, st2))] =>
    destruct (emitThen_state ev st0 a) as (Hd & Hs & Hl);
    pose proof (ServerFacts.emitThen_not_notFound ev st0 a) as Hnf end.
  rewrite Hd, Hs. done.
Qed.

Lemma delete_moods i (tEvent tReturn : Z) st :
  moods (database (delete i tEvent tReturn st).2)
  = removeFirst i (moods (database st)).
Proof.
  unfold delete, removeFirst. destruct (findIndex _ _) as [k|]; [|done].
  match goal with |- context [emitThen ?ev ?st0 (fun st2 => (Returned ?a, st2))] =>
    rewrite (proj1 (emitThen_state ev st0 a)) end.
  reflexivity.
Qed.

Lemma update_moods i (updates : PartialMoodEntry) (tEvent tReturn : Z) st :
  moods (database (update i updates tEvent tReturn st).2)
  = mergeFirst i updates (moods (database st)).
Proof.
  unfold update, mergeFirst. destruct (findIndex _ _) as [k|]; [|done].
  match goal with |- context [emitThen ?ev ?st0 (fun st2 => (Returned ?a, st2))] =>
    rewrite (proj1 (emitThen_state ev st0 a)) end.
  reflexivity.
Qed.

Lemma removeFirst_cons i (x : MoodEntry) (ms : list MoodEntry) :
  removeFirst i (x :: ms) =
  if decide (id x = i) then ms else x :: removeFirst i ms.
Proof.
  unfold removeFirst. simpl. destruct (decide (id x = i)) as [Hx|Hx].
  - apply LedgerFacts.hasId_true in Hx. by rewrite Hx.
  - apply LedgerFacts.hasId_false in Hx. rewrite Hx.
    by destruct (findIndex _ ms).
Qed.

Lemma mergeFirst_cons i (updates : PartialMoodEntry) (x : MoodEntry)
    (ms : list MoodEntry) :
  mergeFirst i updates (x :: ms) =
  if decide (id x = i) then spread x updates :: ms
  else x :: mergeFirst i updates ms.
Proof.
  unfold mergeFirst. simpl. destruct (decide (id x = i)) as [Hx|Hx].
  - apply LedgerFacts.hasId_true in Hx. by rewrite Hx.
  - apply LedgerFacts.hasId_false in Hx. rewrite Hx.
    by destruct (findIndex _ ms).
Qed.

Lemma not_absent_copies i st :
  ~ absent i st <-> Ledger.copies i (moods (database st)) <> 0%nat.
Proof. unfold absent. by rewrite LedgerFacts.copies_zero. Qed.

Lemma delete_absent i (tEvent tReturn : Z) st :
  absent i st -> (delete i tEvent tReturn st).1 = Threw notFound.
Proof.
  intros Habsent. unfold delete.
  by rewrite (proj2 (ServerFacts.findIndex_id_None i _) Habsent).
Qed.

(** X16 ([delete] takes out one entry): when an entry carries the id,
    [delete] removes exactly one entry, one that carries the id, and leaves
    every entry with another id where it was relative to the others.  When
    the stored ids are distinct the id is gone afterwards, so deleting it
    again ends in not-found. *)
Theorem delete_removes_one_entry i (tEvent tReturn : Z) st :
  ~ absent i st ->
  let ms := moods (database st) in
  let st' := (delete i tEvent tReturn st).2 in
  let ms' := moods (database st') in
  (length ms' + 1 = length ms)%nat /\
  (Ledger.copies i ms' + 1 = Ledger.copies i ms)%nat /\
  filter (fun m => id m ≠ i) ms' = filter (fun m => id m ≠ i) ms /\
  (Ledger.distinctIds ms ->
   absent i st' /\ (delete i tEvent tReturn st').1 = Threw notFound).
Proof.
  intros Hpresent. cbv zeta. apply not_absent_copies in Hpresent.
  assert (Ledger.copies i (removeFirst i (moods (database st))) + 1
          = Ledger.copies i (moods (database st)))%nat as Hcount.
  { revert Hpresent. induction (moods (database st)) as [|x ms IH]; [done|].
    rewrite removeFirst_cons, LedgerFacts.copies_cons.
    destruct (decide (id x = i)); [lia|].
    rewrite LedgerFacts.copies_cons, decide_False by done. apply IH. }
  rewrite delete_moods. split; [|split; [exact Hcount|split]].
  - revert Hpresent. clear Hcount.
    induction (moods (database st)) as [|x ms IH]; [done|].
    rewrite removeFirst_cons, LedgerFacts.copies_cons.
    destruct (decide (id x = i)); simpl; [lia|]. intros H. by rewrite IH.
  - clear Hcount Hpresent.
    induction (moods (database st)) as [|x ms IH]; [done|].
    rewrite removeFirst_cons. destruct (decide (id x = i)) as [Hx|Hx].
    + by rewrite filter_cons_False by tauto.
    + rewrite !filter_cons_True by done. by rewrite IH.
  - intros Hdistinct.
    pose proof (LedgerFacts.copies_distinct i _ Hdistinct) as Hle.
    assert (absent i (delete i tEvent tReturn st).2) as Habsent.
    { unfold absent. rewrite delete_moods.
      apply LedgerFacts.copies_zero. lia. }
    split; [done|]. by apply delete_absent.
Qed.

Lemma find_findIndex {A} (p : A -> bool) (l : list A) (x : A) :
  List.find p l = Some x ->
  exists k, findIndex p l = Some k /\ l !! k = Some x.
Proof.
  induction l as [|y l IH]; simpl; [done|].
  destruct (p y).
  - intros [= ->]. by exists 0%nat.
  - intros H. destruct (IH H) as (k & -> & Hk). by exists (S k).
Qed.

Lemma find_mergeFirst i (updates : PartialMoodEntry) (ms : list MoodEntry)
    (old : MoodEntry) :
  p_id updates = None ->
  List.find (fun m => String.eqb (id m) i) ms = Some old ->
  List.find (fun m => String.eqb (id m) i) (mergeFirst i updates ms)
  = Some (spread old updates).
Proof.
  intros Hid. induction ms as [|x ms IH]; [done|].
  rewrite mergeFirst_cons. simpl.
  destruct (decide (id x = i)) as [Hx|Hx].
  - rewrite (proj2 (LedgerFacts.hasId_true i x) Hx). intros [= ->].
    simpl. rewrite Hid. simpl. by rewrite (proj2 (LedgerFacts.hasId_true i old) Hx).
  - rewrite (proj2 (LedgerFacts.hasId_false i x) Hx). intros H.
    simpl. rewrite (proj2 (LedgerFacts.hasId_false i x) Hx). by apply IH.
Qed.

(** X17 (update, then get): when [getById] finds an entry under the id and
    the update does not carry an [id] field, the update stores the entry
    merged with the updates in its place, [getById] returns the merged entry
    afterwards, and so does [update] itself when it returns; the number of
    entries and the entries with other ids are unchanged. *)
Theorem update_then_getById
    i (updates : PartialMoodEntry) (tEvent tReturn now : Z) st
    (old : MoodEntry) :
  List.find (fun m => String.eqb (id m) i) (moods (database st)) = Some old ->
  p_id updates = None ->
  let r := update i updates tEvent tReturn st in
  (getById i now r.2).1
  = Returned {| data := spread old updates; success := true;
                resp_timestamp := now |} /\
  (forall resp, r.1 = Returned resp -> data resp = spread old updates) /\
  length (moods (database r.2)) = length (moods (database st)) /\
  filter (fun m => id m ≠ i) (moods (database r.2))
    = filter (fun m => id m ≠ i) (moods (database st)).
Proof.
  intros Hfind Hid. cbv zeta. split; [|split; [|split]].
  - unfold getById. rewrite update_moods.
    by rewrite (find_mergeFirst i updates _ old Hid Hfind).
  - intros resp. unfold update.
    destruct (find_findIndex _ _ _ Hfind) as (k & -> & Hk).
    intros H. apply emitThen_returned in H. subst resp. simpl.
    apply list_lookup_total_correct.
    by rewrite list_lookup_alter_eq, Hk.
  - rewrite update_moods. clear Hfind.
    induction (moods (database st)) as [|x ms IH]; [done|].
    rewrite mergeFirst_cons. destruct (decide (id x = i)); simpl; [done|].
    by rewrite IH.
  - rewrite update_moods. clear Hfind.
    induction (moods (database st)) as [|x ms IH]; [done|].
    rewrite mergeFirst_cons. destruct (decide (id x = i)) as [Hx|Hx].
    + rewrite (filter_cons_False _ (spread x updates))
        by (simpl; rewrite Hid; simpl; tauto).
      by rewrite (filter_cons_False _ x) by tauto.
    + rewrite !filter_cons_True by done. by rewrite IH.
Qed.

End Mutations.

Lemma update_then_getById_witness :
  let updates := {| p_id := None; p_level := Some L1; p_category := None;
                    p_note := Some (Some "better now"); p_timestamp := None;
                    p_userId := None |} in
  List.find (fun m => String.eqb (id m) Samples.serverId1)
    (moods (database Samples.sampleServer)) = Some Samples.happyEntry /\
  p_id updates = None /\
  let r := update Samples.serverId1 updates 10 11 Samples.sampleServer in
  (getById Samples.serverId1 12 r.2).1
  = Returned {| data := spread Samples.happyEntry updates; success := true;
                resp_timestamp := 12 |} /\
  (forall resp, r.1 = Returned resp ->
                data resp = spread Samples.happyEntry updates) /\
  length (moods (database r.2))
    = length (moods (database Samples.sampleServer)) /\
  filter (fun m => id m ≠ Samples.serverId1) (moods (database r.2))
    = filter (fun m => id m ≠ Samples.serverId1)
             (moods (database Samples.sampleServer)).
Proof.
  split; [reflexivity|]. split; [reflexivity|].
  exact (update_then_getById Samples.serverId1
           {| p_id := None; p_level := Some L1; p_category := None;
              p_note := Some (Some "better now"); p_timestamp := None;
              p_userId := None |}
           10 11 12 Samples.sampleServer Samples.happyEntry eq_refl eq_refl).
Defined.

Lemma delete_removes_one_entry_witness :
  ~ absent Samples.serverId1 Samples.sampleServer /\
  let ms := moods (database Samples.sampleServer) in
  let st' := (delete Samples.serverId1 10 11 Samples.sampleServer).2 in
  let ms' := moods (database st') in
  (length ms' + 1 = length ms)%nat /\
  (Ledger.copies Samples.serverId1 ms' + 1
   = Ledger.copies Samples.serverId1 ms)%nat /\
  filter (fun m => id m ≠ Samples.serverId1) ms'
    = filter (fun m => id m ≠ Samples.serverId1) ms /\
  (Ledger.distinctIds ms ->
   absent Samples.serverId1 st' /\
   (delete Samples.serverId1 10 11 st').1 = Threw notFound).
Proof.
  assert (~ absent Samples.serverId1 Samples.sampleServer) as Hpresent.
  { intros H. apply (H Samples.happyEntry); [left | reflexivity]. }
  split; [exact Hpresent|].
  exact (delete_removes_one_entry Samples.serverId1 10 11
           Samples.sampleServer Hpresent).
Defined.

(** ** Queries *)

Lemma selectsb_between (from to : Z) (m : MoodEntry) :
  from <> 0 -> to <> 0 ->
  selectsb (Some (between from to)) m
  = (from <=? timestamp m) && (timestamp m <=? to).
Proof.
  intros Hfrom Hto. unfold selectsb. simpl.
  apply Z.eqb_neq in Hfrom, Hto. rewrite Hfrom, Hto. simpl.
  by rewrite !andb_true_r.
Qed.

(** X18 ([getToday] as a [getAll]): when neither bound of the day is 0,
    [getToday] returns what [getAll] returns for the filter
    [{ startDate: startOfDay, endDate: startOfDay + 24h - 1 }]. *)
Theorem getToday_is_getAll_of_the_day
    (startOfDay tReturn now : Z) (db : MockDatabase) :
  startOfDay <> 0 ->
  startOfDay + msPerDay - 1 <> 0 ->
  data (getToday startOfDay tReturn db)
  = page_data (getAll (Some (between startOfDay (startOfDay + msPerDay - 1)))
                 now db).
Proof.
  intros Hfrom Hto. rewrite ServerFacts.getAll_data. unfold getToday. simpl.
  f_equal. apply List.filter_ext. intros m.
  by rewrite selectsb_between.
Qed.

Lemma getToday_is_getAll_of_the_day_witness :
  1000 <> 0 /\ 1000 + msPerDay - 1 <> 0 /\
  data (getToday 1000 5 Samples.sampleDatabase)
  = page_data (getAll (Some (between 1000 (1000 + msPerDay - 1)))
                 6 Samples.sampleDatabase).
Proof.
  assert (1000 <> 0) as Hfrom by lia.
  assert (1000 + msPerDay - 1 <> 0) as Hto by (unfold msPerDay; lia).
  split; [exact Hfrom|]. split; [exact Hto|].
  exact (getToday_is_getAll_of_the_day 1000 5 6 Samples.sampleDatabase
           Hfrom Hto).
Defined.

(** X19 ([getStats] counts what [getAll] lists): when neither bound is 0,
    the count of [getStats(startDate, endDate)] is the total [getAll] reports
    for the filter [{ startDate, endDate }]. *)
Theorem getStats_count_is_getAll_total
    (from to now now' : Z) (db : MockDatabase) :
  from <> 0 -> to <> 0 ->
  count (data (getStats from to now db))
  = total (getAll (Some (between from to)) now' db).
Proof.
  intros Hfrom Hto.
  change (total (getAll (Some (between from to)) now' db))
    with (length (page_data (getAll (Some (between from to)) now' db))).
  rewrite ServerFacts.getAll_data, ServerFacts.sortBy_perm.
  unfold getStats. simpl. f_equal. apply List.filter_ext. intros m.
  by rewrite selectsb_between.
Qed.

Lemma getStats_count_is_getAll_total_witness :
  1000 <> 0 /\ 2500 <> 0 /\
  count (data (getStats 1000 2500 5 Samples.sampleDatabase))
  = total (getAll (Some (between 1000 2500)) 6 Samples.sampleDatabase).
Proof.
  assert (1000 <> 0) as Hfrom by lia.
  assert (2500 <> 0) as Hto by lia.
  split; [exact Hfrom|]. split; [exact Hto|].
  exact (getStats_count_is_getAll_total 1000 2500 5 6 Samples.sampleDatabase
           Hfrom Hto).
Defined.

(** With a lower bound of 0 the two differ: [getStats] applies the bound,
    [getAll] does not. *)
Example getStats_and_getAll_differ_at_zero :
  let db := {| moods := [Samples.entryWith "old" calm L1 (-5)] |} in
  count (data (getStats 0 10 5 db)) = 0%nat /\
  total (getAll (Some (between 0 10)) 6 db) = 1%nat.
Proof. split; reflexivity. Qed.

(** ** Statistics *)

Lemma bump_countOf_same (c : MoodCategory) (m : list (MoodCategory * Z)) :
  countOf c (bump c m) = countOf c m + 1.
Proof.
  induction m as [|[k n] m IH]; simpl.
  - by rewrite decide_True.
  - destruct (decide (k = c)) as [->|Hk]; simpl.
    + rewrite decide_True by done. destruct (n =? 0) eqn:Hn; [|done].
      apply Z.eqb_eq in Hn. lia.
    + by rewrite decide_False.
Qed.

Lemma bump_countOf_other (c c' : MoodCategory) (m : list (MoodCategory * Z)) :
  c' <> c -> countOf c' (bump c m) = countOf c' m.
Proof.
  intros Hc. induction m as [|[k n] m IH]; simpl.
  - by rewrite decide_False.
  - destruct (decide (k = c)) as [->|Hk]; simpl.
    + by rewrite !decide_False.
    + destruct (decide (k = c')); [done | exact IH].
Qed.

Lemma bump_sumOfValues (c : MoodCategory) (m : list (MoodCategory * Z)) :
  sumOfValues (bump c m) = sumOfValues m + 1.
Proof.
  unfold sumOfValues. induction m as [|[k n] m IH]; simpl; [done|].
  destruct (decide (k = c)); simpl.
  - destruct (n =? 0) eqn:Hn; [apply Z.eqb_eq in Hn|]; lia.
  - rewrite IH. lia.
Qed.

Lemma bump_keys (c : MoodCategory) (m : list (MoodCategory * Z)) :
  (bump c m).*1 = if bool_decide (c ∈ m.*1) then m.*1 else m.*1 ++ [c].
Proof.
  induction m as [|[k n] m IH]; [done|]. cbn [bump].
  destruct (decide (k = c)) as [->|Hk].
  - rewrite !fmap_cons. cbn [fst].
    rewrite bool_decide_eq_true_2; [done | left].
  - rewrite !fmap_cons, IH. cbn [fst].
    destruct (bool_decide_reflect (c ∈ m.*1)) as [Hin|Hin].
    + rewrite bool_decide_eq_true_2; [done | by right].
    + rewrite bool_decide_eq_false_2; [done|].
      rewrite not_elem_of_cons. split; [congruence | done].
Qed.

Lemma bump_keys_NoDup (c : MoodCategory) (m : list (MoodCategory * Z)) :
  NoDup m.*1 -> NoDup (bump c m).*1.
Proof.
  intros Hm. rewrite bump_keys.
  destruct (bool_decide_reflect (c ∈ m.*1)) as [Hin|Hin]; [done|].
  apply NoDup_app. split; [done|]. split; [|apply NoDup_singleton].
  intros x Hx Hxc. apply list_elem_of_singleton in Hxc. by subst x.
Qed.

Lemma bump_positive (c : MoodCategory) (m : list (MoodCategory * Z)) :
  Forall (fun kn => 0 < kn.2) m -> Forall (fun kn => 0 < kn.2) (bump c m).
Proof.
  induction 1 as [|[k n] m Hn Hm IH]; simpl.
  - by repeat constructor.
  - destruct (decide (k = c)); constructor; simpl in *; try done.
    destruct (n =? 0); lia.
Qed.

(** The two accumulators of the [forEach] of [getStats], one at a time. *)
Lemma getStats_accumulators (ms : list MoodEntry)
    (byCat : list (MoodCategory * Z)) (tot : Z) :
  foldl (fun '(byCat, tot) m =>
           (bump (category m) byCat, tot + levelValue (level m)))
        (byCat, tot) ms
  = (foldl (fun byCat m => bump (category m) byCat) byCat ms,
     tot + sumOfLevels ms).
Proof.
  revert byCat tot. induction ms as [|m ms IH]; intros byCat tot; simpl.
  - f_equal. unfold sumOfLevels. simpl. lia.
  - rewrite IH. f_equal. unfold sumOfLevels. simpl. lia.
Qed.

Lemma sumOfLevels_bounds (ms : list MoodEntry) :
  Z.of_nat (length ms) <= sumOfLevels ms <= 5 * Z.of_nat (length ms).
Proof.
  unfold sumOfLevels. induction ms as [|m ms IH]; simpl; [lia|].
  destruct (level m); simpl; lia.
Qed.

Lemma tally_countOf (c : MoodCategory) (ms : list MoodEntry)
    (byCat : list (MoodCategory * Z)) :
  countOf c (foldl (fun byCat m => bump (category m) byCat) byCat ms)
  = countOf c byCat
    + Z.of_nat (length (List.filter
                          (fun m => bool_decide (category m = c)) ms)).
Proof.
  revert byCat. induction ms as [|m ms IH]; intros byCat; simpl; [lia|].
  rewrite IH. destruct (bool_decide_reflect (category m = c)) as [<-|Hc].
  - rewrite bump_countOf_same. simpl. lia.
  - rewrite bump_countOf_other by done. lia.
Qed.

Lemma tally_invariants (ms : list MoodEntry) (byCat : list (MoodCategory * Z)) :
  let r := foldl (fun byCat m => bump (category m) byCat) byCat ms in
  sumOfValues r = sumOfValues byCat + Z.of_nat (length ms) /\
  (NoDup byCat.*1 -> NoDup r.*1) /\
  (Forall (fun kn => 0 < kn.2) byCat -> Forall (fun kn => 0 < kn.2) r).
Proof.
  cbv zeta. revert byCat. induction ms as [|m ms IH]; intros byCat; simpl.
  - split; [lia | done].
  - destruct (IH (bump (category m) byCat)) as (Hsum & Hkeys & Hpos).
    split; [|split].
    + rewrite Hsum, bump_sumOfValues. lia.
    + intros H. by apply Hkeys, bump_keys_NoDup.
    + intros H. by apply Hpos, bump_positive.
Qed.

(** X20 (breakdown by category): in the result of [getStats] the count is
    the number of stored entries in the range; for every category the
    breakdown holds the number of those entries that have it (and nothing
    for a category none of them has); a category is listed once, with a
    positive number, and the numbers add up to the count. *)
Theorem getStats_breakdown (from to now : Z) (db : MockDatabase) :
  let r := data (getStats from to now db) in
  count r = length (inRange from to db) /\
  (forall c, countOf c (byCategory r)
             = Z.of_nat (length (List.filter
                                   (fun m => bool_decide (category m = c))
                                   (inRange from to db)))) /\
  NoDup (byCategory r).*1 /\
  Forall (fun kn => 0 < kn.2) (byCategory r) /\
  sumOfValues (byCategory r) = Z.of_nat (count r).
Proof.
  cbv zeta. unfold getStats. simpl. fold (inRange from to db).
  rewrite getStats_accumulators. simpl.
  destruct (tally_invariants (inRange from to db) []) as (Hsum & Hkeys & Hpos).
  split; [done|]. split; [|split; [|split]].
  - intros c. by rewrite tally_countOf.
  - apply Hkeys. constructor.
  - apply Hpos. constructor.
  - by rewrite Hsum.
Qed.

Lemma toEighths_monotone (p q : Q) :
  (p <= q)%Q -> (toEighths p <= toEighths q)%Q.
Proof.
  intros H. unfold toEighths, Qdiv. apply Qmult_le_compat_r; [|done].
  rewrite <- Zle_Qle. apply Qfloor_resp_le.
  apply Qplus_le_l. by apply Qmult_le_compat_r.
Qed.

(** The rounding does round: ten thirds become twenty-seven eighths. *)
Example toEighths_of_ten_thirds : (toEighths (10 # 3) == 27 # 8)%Q.
Proof. reflexivity. Qed.

(** X21 (average level): when the range holds at least one entry, the
    average [getStats] returns lies between 1 and 5.  The value returned is
    the quotient of the sum of the levels by the count as the division of
    the language rounds it; the bounds hold for every rounding that is
    monotone and leaves 1 and 5 as they are. *)
Theorem getStats_average_between_1_and_5
    (fl : Q -> Q) (from to now : Z) (db : MockDatabase) :
  (forall p q, (p <= q)%Q -> (fl p <= fl q)%Q) ->
  (fl 1 == 1)%Q ->
  (fl 5 == 5)%Q ->
  inRange from to db <> [] ->
  let r := data (getStats from to now db) in
  (1 <= returnedAverage fl r)%Q /\ (returnedAverage fl r <= 5)%Q.
Proof.
  intros Hmono H1 H5 Hne. cbv zeta. unfold returnedAverage, getStats.
  cbn [data average count]. fold (inRange from to db).
  rewrite getStats_accumulators. cbn [snd].
  pose proof (sumOfLevels_bounds (inRange from to db)) as Hb.
  destruct (inRange from to db) as [|m ms] eqn:Hms; [done|].
  set (len := length (m :: ms)) in *.
  assert (0 < Z.of_nat len) as Hlen by (subst len; simpl; lia).
  assert ((len =? 0)%nat = false) as -> by (subst len; done).
  set (tot := sumOfLevels (m :: ms)) in *.
  assert (0 < inject_Z (Z.of_nat len))%Q as Hq.
  { change 0%Q with (inject_Z 0). by rewrite <- Zlt_Qlt. }
  split.
  - rewrite <- H1. apply Hmono.
    apply Qle_shift_div_l; [done|]. rewrite Qmult_1_l.
    rewrite <- Zle_Qle. lia.
  - rewrite <- H5. apply Hmono.
    apply Qle_shift_div_r; [done|].
    change 5%Q with (inject_Z 5). rewrite <- inject_Z_mult, <- Zle_Qle. lia.
Qed.

Lemma getStats_average_between_1_and_5_witness :
  (forall p q, (p <= q)%Q -> (toEighths p <= toEighths q)%Q) /\
  (toEighths 1 == 1)%Q /\
  (toEighths 5 == 5)%Q /\
  inRange 0 4000 Samples.sampleDatabase <> [] /\
  let r := data (getStats 0 4000 7 Samples.sampleDatabase) in
  (1 <= returnedAverage toEighths r)%Q /\
  (returnedAverage toEighths r <= 5)%Q.
Proof.
  assert (inRange 0 4000 Samples.sampleDatabase <> []) as Hne
    by (vm_compute; discriminate).
  split; [exact toEighths_monotone|].
  split; [reflexivity|]. split; [reflexivity|].
  split; [exact Hne|].
  exact (getStats_average_between_1_and_5 toEighths 0 4000 7
           Samples.sampleDatabase toEighths_monotone
           (eq_refl : (toEighths 1 == 1)%Q) (eq_refl : (toEighths 5 == 5)%Q)
           Hne).
Defined.

End BackendFacts.

(** * Properties of the timeline *)

Module TimelineFacts.
Import Timeline Backend.

Lemma insertBy_ascending (x : MoodEntry) (l : list MoodEntry) :
  ascending l -> ascending (insertBy byTimestampAsc x l).
Proof.
  unfold ascending. induction 1 as [|y l Hl IH Hy]; simpl.
  - repeat constructor.
  - unfold byTimestampAsc at 1.
    destruct (timestamp x - timestamp y <=? 0) eqn:Hcmp.
    + apply Z.leb_le in Hcmp. constructor; [by constructor|].
      constructor; [lia|].
      eapply Forall_impl; [exact Hy|]. simpl. intros z Hz. lia.
    + apply Z.leb_gt in Hcmp. constructor; [exact IH|].
      rewrite ServerFacts.insertBy_perm. constructor; [lia | exact Hy].
Qed.

Lemma sortBy_ascending (l : list MoodEntry) :
  ascending (sortBy byTimestampAsc l).
Proof.
  induction l as [|x l IH]; simpl; [constructor|].
  by apply insertBy_ascending.
Qed.

Lemma ascending_lookup (l : list MoodEntry) (i j : nat) (a b : MoodEntry) :
  ascending l -> (i < j)%nat -> l !! i = Some a -> l !! j = Some b ->
  timestamp a <= timestamp b.
Proof.
  unfold ascending. intros Hl. revert i j.
  induction Hl as [|x l Hl IH Hx]; intros i j Hij Hi Hj; [done|].
  destruct j as [|j]; [lia|]. simpl in Hj. destruct i as [|i].
  - simpl in Hi. injection Hi as <-.
    rewrite Forall_lookup in Hx. by apply (Hx j).
  - simpl in Hi. apply (IH i j); [lia | done | done].
Qed.

Lemma timelineData_parts (entries : list MoodEntry) (now : Z) :
  let d := timelineData entries now in
  let sorted := sortBy byTimestampAsc entries in
  segments d
  = imap (fun index entry =>
            {| startTime := timestamp entry;
               endTime := match sorted !! (index + 1)%nat with
                          | Some nextEntry => timestamp nextEntry
                          | None => now
                          end;
               mood := entry;
               color := MOOD_COLORS (category entry);
               intensity := (inject_Z (levelValue (level entry)) / 5)%Q |})
         sorted /\
  currentMood d = last sorted /\
  moodCounts d
  = foldl (fun counts entry => Server.bump (category entry) counts) [] sorted /\
  totalEntries d = length entries.
Proof.
  cbv zeta. destruct entries as [|e es]; [done|].
  unfold timelineData. cbn [length Nat.eqb].
  rewrite BackendFacts.getStats_accumulators. cbn [fst snd segments
    currentMood moodCounts totalEntries].
  split; [done|]. split; [|split; [done|]].
  - rewrite last_lookup. f_equal. lia.
  - by rewrite ServerFacts.sortBy_perm.
Qed.

(** X22 (segments of the timeline): the timeline has one segment per
    entry, in ascending order of timestamp; a segment starts at the
    timestamp of its entry; a segment that has a successor ends where the
    successor starts and has no negative duration; the last segment ends at
    the current time. *)
Theorem timeline_segments_chain (entries : list MoodEntry) (now : Z) :
  let d := timelineData entries now in
  length (segments d) = length entries /\
  totalEntries d = length entries /\
  mood <$> segments d ≡ₚ entries /\
  ascending (mood <$> segments d) /\
  startTime <$> segments d = timestamp <$> (mood <$> segments d) /\
  (forall i s1 s2,
     segments d !! i = Some s1 -> segments d !! S i = Some s2 ->
     endTime s1 = startTime s2 /\ startTime s1 <= endTime s1) /\
  (forall s, last (segments d) = Some s -> endTime s = now).
Proof.
  cbv zeta. destruct (timelineData_parts entries now) as (Hsegs & _ & _ & Htot).
  rewrite Hsegs, Htot. clear Hsegs Htot.
  pose proof (ServerFacts.sortBy_perm byTimestampAsc entries) as Hperm.
  pose proof (sortBy_ascending entries) as Hasc.
  set (sorted := sortBy byTimestampAsc entries) in *.
  assert (forall (f : nat -> MoodEntry -> TimelineSegment),
            (forall i e, mood (f i e) = e) -> mood <$> imap f sorted = sorted)
    as Hmood.
  { intros f Hf. rewrite fmap_imap.
    rewrite (imap_ext _ (const (fun e => e))) by (intros; apply Hf).
    rewrite imap_const. apply list_fmap_id. }
  rewrite Hmood by done.
  split; [by rewrite length_imap, Hperm|].
  split; [done|]. split; [exact Hperm|].
  split; [exact Hasc|]. split; [|split].
  - rewrite fmap_imap. rewrite (imap_ext _ (const timestamp)) by done.
    by rewrite imap_const.
  - intros i s1 s2 H1 H2.
    apply list_lookup_imap_Some in H1 as (e1 & He1 & ->).
    apply list_lookup_imap_Some in H2 as (e2 & He2 & ->).
    simpl. replace (i + 1)%nat with (S i) by lia. rewrite He2.
    split; [done|].
    apply (ascending_lookup sorted i (S i)); [exact Hasc|lia|done|done].
  - intros s. rewrite last_lookup, length_imap. intros Hs.
    apply list_lookup_imap_Some in Hs as (e & He & ->). simpl.
    rewrite lookup_ge_None_2; [done|].
    apply lookup_lt_Some in He. lia.
Qed.

(** X23 (current mood): the current mood is an entry with the latest
    timestamp of all, and there is none exactly when there are no
    entries. *)
Theorem timeline_current_mood_is_latest (entries : list MoodEntry) (now : Z) :
  let d := timelineData entries now in
  (currentMood d = None <-> entries = []) /\
  (forall e, currentMood d = Some e ->
             e ∈ entries /\
             forall e', e' ∈ entries -> timestamp e' <= timestamp e).
Proof.
  cbv zeta. destruct (timelineData_parts entries now) as (_ & Hcur & _ & _).
  rewrite Hcur. clear Hcur.
  pose proof (ServerFacts.sortBy_perm byTimestampAsc entries) as Hperm.
  pose proof (sortBy_ascending entries) as Hasc.
  set (sorted := sortBy byTimestampAsc entries) in *.
  split.
  - rewrite last_None. split.
    + intros Hnil. rewrite Hnil in Hperm. by apply Permutation_nil_l in Hperm.
    + intros ->. done.
  - intros e He. rewrite last_lookup in He. split.
    + rewrite <- Hperm. by apply list_elem_of_lookup_2 in He.
    + intros e' He'. rewrite <- Hperm in He'.
      apply list_elem_of_lookup in He' as [j Hj].
      pose proof (lookup_lt_Some _ _ _ Hj) as Hlt.
      destruct (decide (j = Nat.pred (length sorted))) as [->|Hne].
      * rewrite He in Hj. injection Hj as ->. lia.
      * apply (ascending_lookup sorted j (Nat.pred (length sorted)));
          [done | lia | done | done].
Qed.

Lemma List_filter_perm {A} (p : A -> bool) (l l' : list A) :
  l ≡ₚ l' -> List.filter p l ≡ₚ List.filter p l'.
Proof.
  induction 1 as [|x l l' _ IH|x y l|l l' l'' _ IH1 _ IH2]; simpl.
  - done.
  - destruct (p x); [by constructor | done].
  - destruct (p x), (p y); try done. apply Permutation_swap.
  - by etrans.
Qed.

Lemma countOf_zero_or_listed (c : MoodCategory) (m : list (MoodCategory * Z)) :
  countOf c m = 0 \/ (c, countOf c m) ∈ m.
Proof.
  induction m as [|[k n] m IH]; simpl; [by left|].
  destruct (decide (k = c)) as [->|Hk]; [right; left|].
  destruct IH as [IH|IH]; [by left | right; by right].
Qed.

Lemma countOf_listed (c : MoodCategory) (n : Z) (m : list (MoodCategory * Z)) :
  NoDup m.*1 -> (c, n) ∈ m -> countOf c m = n.
Proof.
  induction m as [|[k n'] m IH]; [by intros _ H; inversion H|].
  rewrite fmap_cons, NoDup_cons. intros [Hk Hm] Hin. simpl.
  apply elem_of_cons in Hin as [[= <- <-]|Hin].
  - by rewrite decide_True.
  - destruct (decide (k = c)) as [->|Hkc]; [|by apply IH].
    exfalso. apply Hk. apply list_elem_of_fmap. by exists (c, n).
Qed.

(** What the search for the dominant mood leaves in its two variables. *)
Lemma dominantOf_spec (counts : list (MoodCategory * Z))
    (dominant0 : option MoodCategory) (max0 : Z) :
  let r := foldl (fun '(dominant, maxCount) '(c, n) =>
                    if maxCount <? n then (Some c, n) else (dominant, maxCount))
                 (dominant0, max0) counts in
  max0 <= r.2 /\
  Forall (fun kn => kn.2 <= r.2) counts /\
  (r = (dominant0, max0) \/ exists c, r.1 = Some c /\ (c, r.2) ∈ counts).
Proof.
  cbv zeta. revert dominant0 max0.
  induction counts as [|[c n] counts IH]; intros dominant0 max0; simpl.
  - split; [lia|]. split; [constructor | by left].
  - destruct (max0 <? n) eqn:Hlt.
    + apply Z.ltb_lt in Hlt.
      destruct (IH (Some c) n) as (Hle & Hall & Hwho).
      split; [lia|]. split; [constructor; [done | exact Hall]|].
      right. destruct Hwho as [->|(c' & Hc' & Hin)].
      * exists c. split; [done | left].
      * exists c'. split; [done | by right].
    + apply Z.ltb_ge in Hlt.
      destruct (IH dominant0 max0) as (Hle & Hall & Hwho).
      split; [done|]. split; [constructor; [simpl; lia | exact Hall]|].
      destruct Hwho as [->|(c' & Hc' & Hin)]; [by left|].
      right. exists c'. split; [done | by right].
Qed.

(** X24 (mood counts and dominant mood): for every category the timeline
    counts the entries that have it, and the counts add up to the number of
    entries.  The dominant mood is a category with the largest count, which
    is positive; there is none exactly when there are no entries. *)
Theorem timeline_counts_and_dominant_mood
    (entries : list MoodEntry) (now : Z) :
  let d := timelineData entries now in
  (forall c, countOf c (moodCounts d)
             = Z.of_nat (length (List.filter
                                   (fun e => bool_decide (category e = c))
                                   entries))) /\
  sumOfValues (moodCounts d) = Z.of_nat (length entries) /\
  (forall c, dominantMood d = Some c ->
             0 < countOf c (moodCounts d) /\
             forall c', countOf c' (moodCounts d) <= countOf c (moodCounts d)) /\
  (dominantMood d = None <-> entries = []).
Proof.
  cbv zeta.
  destruct (timelineData_parts entries now) as (_ & _ & Hcounts & _).
  assert (dominantMood (timelineData entries now)
          = (dominantOf (moodCounts (timelineData entries now))).1) as Hdom.
  { destruct entries as [|e es]; [done|].
    unfold timelineData. cbn [length Nat.eqb]. done. }
  rewrite Hdom, Hcounts. clear Hdom Hcounts.
  pose proof (ServerFacts.sortBy_perm byTimestampAsc entries) as Hperm.
  set (sorted := sortBy byTimestampAsc entries) in *.
  destruct (BackendFacts.tally_invariants sorted []) as (Hsum & Hkeys & Hpos).
  specialize (Hkeys ltac:(constructor)). specialize (Hpos ltac:(constructor)).
  set (counts := foldl (fun counts entry => Server.bump (category entry) counts)
                       [] sorted) in *.
  assert (sumOfValues counts = Z.of_nat (length entries)) as Hsum'.
  { rewrite Hsum. unfold sumOfValues. simpl. by rewrite Hperm. }
  destruct (dominantOf_spec counts None 0) as (Hmax & Hall & Hwho).
  fold (dominantOf counts) in Hmax, Hall, Hwho.
  assert (forall c, (dominantOf counts).1 = Some c ->
                    (c, (dominantOf counts).2) ∈ counts) as Hlisted.
  { intros c Hc. destruct Hwho as [Heq|(c' & Hc' & Hin)].
    - rewrite Heq in Hc. discriminate Hc.
    - rewrite Hc in Hc'. by injection Hc' as <-. }
  split; [|split; [exact Hsum'|split]].
  - intros c. subst counts. rewrite BackendFacts.tally_countOf.
    cbn [countOf]. rewrite Z.add_0_l. f_equal. apply Permutation_length.
    by apply List_filter_perm.
  - intros c Hc. specialize (Hlisted c Hc).
    rewrite (countOf_listed c _ counts Hkeys Hlisted). split.
    + rewrite Forall_forall in Hpos. by apply (Hpos _ Hlisted).
    + intros c'. destruct (countOf_zero_or_listed c' counts) as [->|Hin]; [done|].
      rewrite Forall_forall in Hall. by apply (Hall _ Hin).
  - split.
    + intros Hnone. destruct entries as [|e es]; [done|]. exfalso.
      destruct counts as [|[c n] counts'] eqn:Hc.
      { unfold sumOfValues in Hsum'. simpl in Hsum'. lia. }
      destruct Hwho as [Heq|(c' & Hc' & _)]; [|congruence].
      apply Forall_cons in Hpos as [Hn _]. apply Forall_cons in Hall as [Hn' _].
      rewrite Heq in Hn'. simpl in *. lia.
    + intros ->. done.
Qed.

(** ** Mood flow *)

Lemma categoryKeys_complete (c : MoodCategory) : c ∈ categoryKeys.
Proof. destruct c; unfold categoryKeys; repeat (first [left | right]). Qed.

Lemma one_key_per_category (k : MoodCategory) :
  sum_list ((fun c => if bool_decide (k = c) then 1%nat else 0%nat)
            <$> categoryKeys) = 1%nat.
Proof. destruct k; reflexivity. Qed.

Lemma sum_list_pointwise {A} (g h : A -> nat) (l : list A) :
  sum_list ((fun c => g c + h c)%nat <$> l)
  = (sum_list (g <$> l) + sum_list (h <$> l))%nat.
Proof. induction l as [|x l IH]; csimpl; [done|]. rewrite IH. lia. Qed.

Lemma ofCategory_total (entries : list MoodEntry) :
  sum_list ((fun c => length (ofCategory c entries)) <$> categoryKeys)
  = length entries.
Proof.
  induction entries as [|e es IH].
  - reflexivity.
  - rewrite (list_fmap_ext _
      (fun c => ((if bool_decide (category e = c) then 1 else 0)
                 + length (ofCategory c es))%nat) categoryKeys).
    + rewrite sum_list_pointwise, one_key_per_category, IH. done.
    + intros i c _. unfold ofCategory. simpl.
      by destruct (bool_decide (category e = c)).
Qed.

Lemma moodFlow_fold (entries : list MoodEntry) :
  exists mk : MoodCategory -> FlowItem,
    moodFlow entries
    = List.filter (fun item => (0 <? flowCount item)%nat)
                  (List.map mk categoryKeys) /\
    forall c, flowCategory (mk c) = c /\
              flowColor (mk c) = MOOD_COLORS c /\
              flowCount (mk c) = length (ofCategory c entries).
Proof. eexists. split; [reflexivity|]. intros c. by cbv beta. Qed.

Lemma sum_positive_counts (items : list FlowItem) :
  sum_list (flowCount <$>
              List.filter (fun item => (0 <? flowCount item)%nat) items)
  = sum_list (flowCount <$> items).
Proof.
  induction items as [|x items IH]; csimpl; [done|].
  destruct (0 <? flowCount x)%nat eqn:Hx; csimpl; rewrite IH; [done|].
  apply Nat.ltb_ge in Hx. lia.
Qed.

(** X25 (mood flow): the flow has one item for every category that some
    entry has, and none for the others, in the order of the keys of
    [MOOD_COLORS]; an item carries the colour of its category and the number
    of entries that have it; the numbers add up to the number of entries. *)
Theorem moodFlow_counts_every_entry_once (entries : list MoodEntry) :
  let items := moodFlow entries in
  (forall item, item ∈ items ->
     (0 < flowCount item)%nat /\
     flowCount item = length (ofCategory (flowCategory item) entries) /\
     flowColor item = MOOD_COLORS (flowCategory item)) /\
  (forall c, c ∈ flowCategory <$> items <->
             exists e, e ∈ entries /\ category e = c) /\
  flowCategory <$> items `sublist_of` categoryKeys /\
  sum_list (flowCount <$> items) = length entries.
Proof.
  cbv zeta. destruct (moodFlow_fold entries) as (mk & -> & Hmk).
  assert (forall c, (0 < length (ofCategory c entries))%nat <->
                    exists e, e ∈ entries /\ category e = c) as Hsome.
  { intros c. unfold ofCategory. split.
    - intros Hlen.
      destruct (List.filter _ entries) as [|e l] eqn:Hf; [simpl in Hlen; lia|].
      assert (e ∈ List.filter (fun e => bool_decide (category e = c)) entries)
        as He by (rewrite Hf; left).
      apply ServerFacts.elem_of_List_filter in He as [He Hc].
      exists e. split; [done|]. by apply bool_decide_eq_true in Hc.
    - intros (e & He & Hc).
      assert (e ∈ List.filter (fun e => bool_decide (category e = c)) entries)
        as Hin.
      { apply ServerFacts.elem_of_List_filter. split; [done|].
        by apply bool_decide_eq_true. }
      destruct (List.filter _ entries); [inversion Hin | simpl; lia]. }
  split; [|split; [|split]].
  - intros item Hitem.
    apply ServerFacts.elem_of_List_filter in Hitem as [Hitem Hpos].
    apply list_elem_of_In, List.in_map_iff in Hitem as (c & <- & _).
    destruct (Hmk c) as (Hc & Hcol & Hcnt). rewrite Hc.
    apply Nat.ltb_lt in Hpos. done.
  - intros c. rewrite <- Hsome. rewrite list_elem_of_fmap. split.
    + intros (item & -> & Hitem).
      apply ServerFacts.elem_of_List_filter in Hitem as [Hitem Hpos].
      apply list_elem_of_In, List.in_map_iff in Hitem as (c & <- & _).
      destruct (Hmk c) as (Hc & _ & Hcnt). rewrite Hc, <- Hcnt.
      by apply Nat.ltb_lt.
    + intros Hpos. exists (mk c). destruct (Hmk c) as (Hc & _ & Hcnt).
      split; [done|]. apply ServerFacts.elem_of_List_filter. split.
      * apply list_elem_of_In, List.in_map, list_elem_of_In.
        apply categoryKeys_complete.
      * apply Nat.ltb_lt. by rewrite Hcnt.
  - induction categoryKeys as [|c l IH]; simpl; [done|].
    destruct (0 <? flowCount (mk c))%nat; simpl.
    + rewrite (proj1 (Hmk c)). by apply sublist_skip.
    + by apply sublist_cons.
  - rewrite sum_positive_counts. rewrite <- ofCategory_total.
    rewrite <- list_fmap_compose. apply (f_equal sum_list).
    apply list_fmap_ext. intros i c _. simpl. apply Hmk.
Qed.

End TimelineFacts.

(** * Properties of the optimistic mutations *)

Module MutationFacts.
Import Immer Ledger Mutations.

Lemma temporary_id_truthy (u : string) :
  truthyString (String.append tempPrefix u) = true.
Proof. reflexivity. Qed.

(** [onSuccess] of [useCreateMood] ends in the exception of [confirmEntry]
    when its context carries a temporary id, and does nothing otherwise; the
    client is as it was in both cases. *)
Lemma createOnSuccess_changes_nothing (response : ApiResponse MoodEntry)
    (context : option CreateContext) (c : Client) :
  createOnSuccess response context c
  = (match context with
     | Some ctx =>
         if truthyString (tempId ctx) then Error MapSetNotLoaded else Ok tt
     | None => Ok tt
     end, c).
Proof.
  destruct c as [st td ls]. destruct context as [ctx|]; [|done].
  unfold createOnSuccess. by destruct (truthyString (tempId ctx)).
Qed.

(** X26 (an optimistic create shows nothing): [onMutate] of [useCreateMood]
    ends in the exception of [addEntry] before it reads or writes the cache:
    store and caches are as they were and no context is returned.  [onError],
    called without a context, then restores nothing, does not call
    [rejectEntry] and returns normally, so the [error] field of the store is
    what it was before the create. *)
Theorem create_onMutate_throws_and_changes_nothing
    (variables : CreateVariables) (uContext uStore : string)
    (tOptimistic tStore : Z) (c : Client) :
  let m := createOnMutate variables uContext tOptimistic uStore tStore c in
  m = (Error MapSetNotLoaded, c) /\
  createOnError None m.2 = (Ok tt, c) /\
  entries (store (createOnError None m.2).2) = entries (store c) /\
  error (store (createOnError None m.2).2) = error (store c) /\
  today (createOnError None m.2).2 = today c.
Proof.
  cbv zeta. unfold createOnMutate.
  rewrite LedgerFacts.addEntry_throws. destruct c as [st td ls].
  by repeat split.
Qed.

(** X28 (an optimistic delete removes nothing): [onMutate] of
    [useDeleteMood] ends in the exception of [deleteEntry] before it writes
    the cache: the store still holds every entry it held, the one to delete
    included, and the cache is as it was.  [onError], called without a
    context, changes nothing. *)
Theorem delete_onMutate_throws_and_changes_nothing (i : string) (c : Client) :
  let m := deleteOnMutate i c in
  m = (Error MapSetNotLoaded, c) /\
  deleteOnError None m.2 = c /\
  entries (store (deleteOnError None m.2)) = entries (store c) /\
  today (deleteOnError None m.2) = today c /\
  copies i (entries (store (deleteOnError None m.2)))
    = copies i (entries (store c)).
Proof.
  cbv zeta. unfold deleteOnMutate.
  rewrite LedgerFacts.deleteEntry_throws. destruct c as [st td ls].
  by repeat split.
Qed.

(** A client whose store holds the two sample entries and whose cache of
    today's entries holds the confirmed one. *)
Example delete_of_a_stored_entry :
  let c := {| store := Samples.twoEntries;
              today := Some {| data := [Samples.confirmedEntry];
                               success := true; resp_timestamp := 5 |};
              lists := None |} in
  (deleteOnMutate Samples.serverId1 c).1 = Error MapSetNotLoaded /\
  entries (store (deleteOnMutate Samples.serverId1 c).2)
    = [Samples.confirmedEntry; Samples.pendingEntry] /\
  today (deleteOnMutate Samples.serverId1 c).2 = today c.
Proof. by repeat split. Qed.

End MutationFacts.
